(** * Tana DB: schema, condition tree, statement builders and model layer

    A shallow embedding of [src/lib/db/schema.ts], [src/lib/db/query.ts]
    and [src/lib/db/model.ts], with the properties of the compiled SQL
    text and parameter lists.

    Conventions of the embedding.
    - A JavaScript number that is used as a placeholder index, a LIMIT or
      an OFFSET is an integer of [Z] that a double holds. The additions
      that [toSQL(paramIndex)] makes on the index it is given are those of
      doubles, [Js.add]: they are exact up to [2 ** 53] and round beyond.
      A number is rendered in a template literal by [Js.toString]. The
      counters that [toSQL()] of the insert and update builders starts at
      1 and increments once per value stay far below [2 ** 53], where the
      addition of doubles is the one of [Z].
    - A JavaScript object used as a record of named entries (the columns
      of a table, a row, an attribute object) is the association list of
      its own properties, in [Object.keys] order; property lookup is
      [Js.get], which also finds the members that every object inherits
      from [Object.prototype].
    - A thrown exception is the outcome [Throw]; an [async] function that
      rejects is a function that throws, and [await] is sequencing. *)

From stdpp Require Import gmap strings list pretty.

#[local] Set Warnings "-register-all".

Local Open Scope Z_scope.
Local Open Scope string_scope.
Local Open Scope list_scope.

(** ** JavaScript strings *)

Module Js.

(** The one-character string holding a double quote. *)
Definition dq : string := String (Ascii.ascii_of_nat 34) EmptyString.

(** [`"${s}"`] *)
Definition quoted (s : string) : string := dq +:+ s +:+ dq.

(** [parts.join(sep)] *)
Definition join (sep : string) (parts : list string) : string :=
  String.concat sep parts.

Definition upper_ascii (c : Ascii.ascii) : Ascii.ascii :=
  let n := Ascii.nat_of_ascii c in
  if (bool_decide (97 ≤ n)%nat && bool_decide (n ≤ 122)%nat)%bool
  then Ascii.ascii_of_nat (n - 32) else c.

(** [s.toUpperCase()], on the ASCII letters the builders apply it to. *)
Fixpoint toUpperCase (s : string) : string :=
  match s with
  | EmptyString => EmptyString
  | String c s' => String (upper_ascii c) (toUpperCase s')
  end.

(** The own property of an object under a key. *)
Fixpoint assoc_get {A} (o : list (string * A)) (key : string) : option A :=
  match o with
  | [] => None
  | (k, v) :: o' => if decide (k = key) then Some v else assoc_get o' key
  end.

(** The names of the members of [Object.prototype]. *)
Definition inherited : list string :=
  ["constructor"; "hasOwnProperty"; "isPrototypeOf"; "propertyIsEnumerable";
   "toLocaleString"; "toString"; "valueOf"; "__proto__";
   "__defineGetter__"; "__defineSetter__"; "__lookupGetter__";
   "__lookupSetter__"].

(** What [o[key]] finds: an own property, a member inherited from
    [Object.prototype], or nothing, in which case it is [undefined]. *)
Inductive Property (A : Type) :=
| Own (a : A)
| Inherited
| Absent.
Arguments Own {A} a.
Arguments Inherited {A}.
Arguments Absent {A}.

(** [o[key]] *)
Definition get {A} (o : list (string * A)) (key : string) : Property A :=
  match assoc_get o key with
  | Some a => Own a
  | None => if bool_decide (key ∈ inherited) then Inherited else Absent
  end.

(** [key in o] *)
Definition has {A} (o : list (string * A)) (key : string) : bool :=
  match get o key with
  | Absent => false
  | _ => true
  end.

(** [o[key] = v]: the own property is replaced where it stands, or added
    after the others. *)
Fixpoint set {A} (o : list (string * A)) (key : string) (v : A)
  : list (string * A) :=
  match o with
  | [] => [(key, v)]
  | (k, x) :: o' =>
      if decide (k = key) then (k, v) :: o' else (k, x) :: set o' key v
  end.

(** [Object.keys(o)] *)
Definition keys {A} (o : list (string * A)) : list string := o.*1.

(** Numbers. The numbers of the embedding are the integers that a
    double holds exactly: every integer up to [2 ** 53] in magnitude and,
    beyond it, the multiples of a power of two whose significand has 53
    bits. *)

(** [2 ** 53]: up to it every integer is a number. *)
Definition exact : Z := 9007199254740992.

(** The distance between the doubles around the integer [n]. *)
Definition ulp (n : Z) : Z := 2 ^ Z.max 0 (Z.log2 (Z.abs n) - 52).

(** The double nearest to the integer [n]; of the two nearest when [n]
    is half way between them, the one whose significand is even. *)
Definition round (n : Z) : Z :=
  let u := ulp n in
  let q := n `div` u in
  let r := n `mod` u in
  if bool_decide (2 * r < u) then q * u
  else if bool_decide (u < 2 * r) then (q + 1) * u
  else if Z.even q then q * u else (q + 1) * u.

(** [x + y] on numbers that are integers: the double nearest to the sum.
    Adding zero leaves a number as it is. *)
Definition add (x y : Z) : Z :=
  if decide (y = 0) then x else round (x + y).

(** The decimal that [String(x)] prints for a number [x] above
    [2 ** 53], which has [d] digits: of the decimals that [x] is the
    nearest double of, one with the fewest significant digits, [k] or
    more; of two such, the nearer to [x], and the even one when they are
    as near. *)
Fixpoint shortest (x d k : Z) (fuel : nat) : Z :=
  match fuel with
  | O => x
  | S fuel' =>
      let p := 10 ^ (d - k) in
      let lo := x `div` p * p in
      let hi := lo + p in
      match bool_decide (round lo = x), bool_decide (round hi = x) with
      | true, true =>
          if bool_decide (x - lo < hi - x) then lo
          else if bool_decide (hi - x < x - lo) then hi
          else if Z.even (lo `div` p) then lo else hi
      | true, false => lo
      | false, true => hi
      | false, false => shortest x d (k + 1) fuel'
      end
  end.

(** A string without the zeros at its end. *)
Fixpoint significant (s : string) : string :=
  match s with
  | EmptyString => EmptyString
  | String c s' =>
      match significant s' with
      | EmptyString =>
          if decide (String c EmptyString = "0") then EmptyString
          else String c EmptyString
      | rest => String c rest
      end
  end.

(** The notation with an exponent, [d.ddde+n], of a decimal of more than
    21 digits. *)
Definition exponential (v : Z) : string :=
  match significant (pretty v) with
  | EmptyString => EmptyString
  | String c EmptyString =>
      String c EmptyString +:+ "e+"
        +:+ pretty (Z.of_nat (String.length (pretty v)) - 1)
  | String c rest =>
      String c EmptyString +:+ "." +:+ rest +:+ "e+"
        +:+ pretty (Z.of_nat (String.length (pretty v)) - 1)
  end.

(** [`${x}`] for a number that is an integer: its decimal digits up to
    [2 ** 53]; beyond, the shortest decimal that reads back as [x],
    written out when it has at most 21 digits and with an exponent
    otherwise. *)
Definition toString (x : Z) : string :=
  if bool_decide (Z.abs x ≤ exact)%Z then pretty x
  else
    let d := Z.of_nat (String.length (pretty (Z.abs x))) in
    let v := shortest (Z.abs x) d 1 (Z.to_nat d) in
    (if bool_decide (x < 0)%Z then "-" else "")
      +:+ (if bool_decide (String.length (pretty v) ≤ 21)%nat then pretty v
           else exponential v).

(** The errors the library throws, and the ones the language raises. *)
Inductive Exn :=
| Error (message : string)
| TypeError (message : string).

End Js.

(** ** Values and parameters ([query.ts], lines 9-11)

    Besides the values of the type [SQLValue], a parameter or an attribute
    can hold at run time [undefined], an object (a row, a JSON value) or
    the member of [Object.prototype] that a lookup has found. *)

Inductive SQLValue :=
| VString (s : string)
| VNumber (n : Z)
| VBoolean (b : bool)
| VNull
| VDate (ms : Z)
| VBigint (n : Z)
| VUndefined
| VObject (entries : list (string * SQLValue))
| VInherited (name : string).

Inductive SQLParam :=
| PValue (v : SQLValue)
| PArray (vs : list SQLValue).

(** ** Schema ([schema.ts]) *)

Module Schema.

Inductive DefaultValue :=
| DefaultLiteral (v : SQLValue)
| DefaultNow
| DefaultRandom.

(** The class [ColumnBuilder]; [_references] keeps the name of the column
    the thunk designates. *)
Record ColumnBuilder := mkColumn {
  columnType : string;
  columnName : string;
  _references : option string;
  _defaultValue : option DefaultValue;
  _notNullFlag : bool;
  _hasDefaultFlag : bool;
  _isPrimaryKeyFlag : bool;
}.

Definition newColumn (type name : string) : ColumnBuilder :=
  mkColumn type name None None false false false.

Definition notNull (c : ColumnBuilder) : ColumnBuilder :=
  mkColumn (columnType c) (columnName c) (_references c) (_defaultValue c)
           true (_hasDefaultFlag c) (_isPrimaryKeyFlag c).

Definition default (c : ColumnBuilder) (value : SQLValue) : ColumnBuilder :=
  mkColumn (columnType c) (columnName c) (_references c)
           (Some (DefaultLiteral value))
           (_notNullFlag c) true (_isPrimaryKeyFlag c).

Definition defaultNow (c : ColumnBuilder) : ColumnBuilder :=
  mkColumn (columnType c) (columnName c) (_references c) (Some DefaultNow)
           (_notNullFlag c) true (_isPrimaryKeyFlag c).

Definition defaultRandom (c : ColumnBuilder) : ColumnBuilder :=
  mkColumn (columnType c) (columnName c) (_references c) (Some DefaultRandom)
           (_notNullFlag c) true (_isPrimaryKeyFlag c).

Definition primaryKey (c : ColumnBuilder) : ColumnBuilder :=
  mkColumn (columnType c) (columnName c) (_references c) (_defaultValue c)
           true (_hasDefaultFlag c) true.

Definition references (c : ColumnBuilder) (ref : string) : ColumnBuilder :=
  mkColumn (columnType c) (columnName c) (Some ref) (_defaultValue c)
           (_notNullFlag c) (_hasDefaultFlag c) (_isPrimaryKeyFlag c).

(** [_getMeta().isPrimaryKey] *)
Definition isPrimaryKey (c : ColumnBuilder) : bool := _isPrimaryKeyFlag c.

Definition text (name : string) : ColumnBuilder := newColumn "text" name.
Definition integer (name : string) : ColumnBuilder := newColumn "integer" name.
Definition boolean (name : string) : ColumnBuilder := newColumn "boolean" name.
Definition uuid (name : string) : ColumnBuilder := newColumn "uuid" name.
Definition serial (name : string) : ColumnBuilder :=
  mkColumn "serial" name None None false true false.

(** The class [Table]: a name and the columns under their property names. *)
Record TableDefinition := mkTable {
  tableName : string;
  columns : list (string * ColumnBuilder);
}.

Definition table (name : string) (cols : list (string * ColumnBuilder))
  : TableDefinition := mkTable name cols.

(** [tbl.columns[key]], which is also what the proxy of [table()] answers
    for [tbl.key] when [key] is not a member of [Table] itself. *)
Definition getColumn (t : TableDefinition) (key : string)
  : Js.Property ColumnBuilder := Js.get (columns t) key.

(** A member of [Object.prototype] read as a column: its [columnName] is
    [undefined], which a template literal renders as the text
    [undefined]; so are its other fields. *)
Definition notAColumn : ColumnBuilder :=
  mkColumn "undefined" "undefined" None None false false false.

(** [tableColumns[prop]?.columnName || prop]: the physical name of a
    property, the property itself when the table has no such column or
    the column's name is the empty string. *)
Definition dbColumnName (t : TableDefinition) (prop : string) : string :=
  match getColumn t prop with
  | Js.Own c => if decide (columnName c = EmptyString) then prop
                else columnName c
  | Js.Inherited | Js.Absent => prop
  end.

End Schema.

Import Schema.

(** ** The condition tree ([query.ts], lines 13-286) *)

Module Condition.

Inductive SQLCondition :=
| ComparisonExpr (column : ColumnBuilder) (op : string) (value : SQLValue)
| InExpr (column : ColumnBuilder) (values : list SQLValue)
| NotInExpr (column : ColumnBuilder) (values : list SQLValue)
| IsNullExpr (column : ColumnBuilder)
| IsNotNullExpr (column : ColumnBuilder)
| BetweenExpr (column : ColumnBuilder) (min max : SQLValue)
| AndExpr (conditions : list SQLCondition)
| OrExpr (conditions : list SQLCondition)
| NotExpr (condition : SQLCondition).

(** The object [toSQL] returns. *)
Record Compiled := mkCompiled {
  sql : string;
  params : list SQLParam;
  nextIndex : Z;
}.

(** [`$${i}`] *)
Definition placeholder (i : Z) : string := "$" +:+ Js.toString i.

(** [values.map((_, i) => `$${paramIndex + i}`).join(', ')] *)
Definition placeholders (paramIndex : Z) (values : list SQLValue) : string :=
  Js.join ", "
    (imap (λ i _, placeholder (Js.add paramIndex (Z.of_nat i))) values).

(** The state of the loop of [AndExpr.toSQL] and [OrExpr.toSQL]:
    [parts], [params] and [idx]. *)
Record Loop := mkLoop {
  loop_parts : list string;
  loop_params : list SQLParam;
  loop_idx : Z;
}.

(** One iteration: [parts.push(result.sql)],
    [params.push(...result.params)], [idx = result.nextIndex]. *)
Definition loop_push (st : Loop) (result : Compiled) : Loop :=
  mkLoop (loop_parts st ++ [sql result])
         (loop_params st ++ params result)
         (nextIndex result).

Fixpoint toSQL (c : SQLCondition) (paramIndex : Z) : Compiled :=
  match c with
  | ComparisonExpr column op value =>
      mkCompiled
        (Js.quoted (columnName column) +:+ " " +:+ op +:+ " "
           +:+ placeholder paramIndex)
        [PValue value]
        (Js.add paramIndex 1)
  | InExpr column values =>
      mkCompiled
        (Js.quoted (columnName column) +:+ " IN ("
           +:+ placeholders paramIndex values +:+ ")")
        (PValue <$> values)
        (Js.add paramIndex (Z.of_nat (length values)))
  | NotInExpr column values =>
      mkCompiled
        (Js.quoted (columnName column) +:+ " NOT IN ("
           +:+ placeholders paramIndex values +:+ ")")
        (PValue <$> values)
        (Js.add paramIndex (Z.of_nat (length values)))
  | IsNullExpr column =>
      mkCompiled (Js.quoted (columnName column) +:+ " IS NULL") [] paramIndex
  | IsNotNullExpr column =>
      mkCompiled (Js.quoted (columnName column) +:+ " IS NOT NULL") []
                 paramIndex
  | BetweenExpr column min max =>
      mkCompiled
        (Js.quoted (columnName column) +:+ " BETWEEN "
           +:+ placeholder paramIndex +:+ " AND "
           +:+ placeholder (Js.add paramIndex 1))
        [PValue min; PValue max]
        (Js.add paramIndex 2)
  | AndExpr conditions =>
      let st := fold_left (λ st cond, loop_push st (toSQL cond (loop_idx st)))
                          conditions (mkLoop [] [] paramIndex) in
      mkCompiled ("(" +:+ Js.join " AND " (loop_parts st) +:+ ")")
                 (loop_params st) (loop_idx st)
  | OrExpr conditions =>
      let st := fold_left (λ st cond, loop_push st (toSQL cond (loop_idx st)))
                          conditions (mkLoop [] [] paramIndex) in
      mkCompiled ("(" +:+ Js.join " OR " (loop_parts st) +:+ ")")
                 (loop_params st) (loop_idx st)
  | NotExpr condition =>
      let result := toSQL condition paramIndex in
      mkCompiled ("NOT " +:+ sql result) (params result) (nextIndex result)
  end.

(** The loop of [AndExpr] and [OrExpr], from any state. *)
Definition loop (conditions : list SQLCondition) (st : Loop) : Loop :=
  fold_left (λ st cond, loop_push st (toSQL cond (loop_idx st)))
            conditions st.

(** The exported operator functions. *)
Definition eq (column : ColumnBuilder) (value : SQLValue) :=
  ComparisonExpr column "=" value.
Definition inArray (column : ColumnBuilder) (values : list SQLValue) :=
  InExpr column values.
Definition and (conditions : list SQLCondition) := AndExpr conditions.
Definition or (conditions : list SQLCondition) := OrExpr conditions.


(** The number of leaf values of a tree: one per comparison, two per
    range, the number of listed values per membership test, none per
    null check. *)
Fixpoint leafValues (c : SQLCondition) : nat :=
  match c with
  | ComparisonExpr _ _ _ => 1
  | InExpr _ values | NotInExpr _ values => length values
  | IsNullExpr _ | IsNotNullExpr _ => 0
  | BetweenExpr _ _ _ => 2
  | AndExpr conditions | OrExpr conditions =>
      foldr (λ cond n, leafValues cond + n)%nat 0%nat conditions
  | NotExpr condition => leafValues condition
  end.




End Condition.

Import Condition.

(** ** The runtime: heap, gateway and exceptions

    The select builders of [query.ts] and the instances of [model.ts] are
    objects with identity: builders share their [_joins], [_orderBy] and
    [_groupBy] arrays by reference and instances are updated in place.
    They live in a heap. The gateway is the object
    [globalThis.__tanaDb]; every call made to it is recorded. *)

Module Runtime.

Definition loc := positive.

(** A row object: the values under their property names. *)
Abbreviation Row := (list (string * SQLValue)).

Inductive JoinType := JoinInner | JoinLeft | JoinRight | JoinFull.

Definition JoinType_string (t : JoinType) : string :=
  match t with
  | JoinInner => "inner" | JoinLeft => "left"
  | JoinRight => "right" | JoinFull => "full"
  end.

Record JoinClause := mkJoin {
  join_type : JoinType;
  join_table : TableDefinition;
  join_on : SQLCondition;
}.

Inductive OrderDirection := Asc | Desc.

Definition OrderDirection_string (d : OrderDirection) : string :=
  match d with Asc => "asc" | Desc => "desc" end.

Record OrderEntry := mkOrder {
  order_column : ColumnBuilder;
  order_direction : OrderDirection;
}.

(** [asc(column)] and [desc(column)] *)
Definition asc (column : ColumnBuilder) : OrderEntry := mkOrder column Asc.
Definition desc (column : ColumnBuilder) : OrderEntry := mkOrder column Desc.

(** An entry of the object given to [select(columns)]. *)
Inductive SelectEntry :=
| SelAggregate (fn : string) (column : option ColumnBuilder)
| SelColumn (column : ColumnBuilder)
| SelOther.

(** [count(column?)], [sum(column)], [avg], [min], [max] *)
Definition count (column : option ColumnBuilder) := SelAggregate "count" column.
Definition sum (column : ColumnBuilder) := SelAggregate "sum" (Some column).
Definition avg (column : ColumnBuilder) := SelAggregate "avg" (Some column).
Definition min (column : ColumnBuilder) := SelAggregate "min" (Some column).
Definition max (column : ColumnBuilder) := SelAggregate "max" (Some column).

(** The field [_select]: the string ['*'] or an object of entries. *)
Inductive Selection :=
| SelectStar
| SelectObject (entries : list (string * SelectEntry)).

(** The fields of a [SelectQueryBuilder]; the three arrays are references. *)
Record SelectFields := mkSelect {
  _from : option TableDefinition;
  _select : Selection;
  _where : option SQLCondition;
  _joins : loc;
  _orderBy : loc;
  _groupBy : loc;
  _limit : option Z;
  _offset : option Z;
}.

(** The fields of a model instance of [createInstance]. *)
Record InstanceFields := mkInstance {
  _attributes : Row;
  _table : TableDefinition;
  _persisted : bool;
}.

Inductive HeapObj :=
| ArrJoin (items : list JoinClause)
| ArrOrder (items : list OrderEntry)
| ArrColumn (items : list ColumnBuilder)
| ObjSelect (fields : SelectFields)
| ObjInstance (fields : InstanceFields).

Inductive GatewayCall :=
| CallQuery (sql : string) (params : list SQLParam)
| CallExecute (sql : string) (params : list SQLParam)
| CallExecuteReturning (sql : string) (params : list SQLParam).

(** The gateway: what each entry point answers, rows or a rejection,
    given the calls made before and the statement. *)
Record Gateway := mkGateway {
  gw_query :
    list GatewayCall → string → list SQLParam → Js.Exn + list Row;
  gw_execute :
    list GatewayCall → string → list SQLParam → Js.Exn + Z;
  gw_executeReturning :
    list GatewayCall → string → list SQLParam → Js.Exn + list Row;
}.

Record World := mkWorld {
  heap : gmap loc HeapObj;
  tanaDb : option Gateway;
  calls : list GatewayCall;
}.

(** The outcome of a computation: a value, an exception, or [Stuck] when
    a reference does not designate an object of the expected class. *)
Inductive Outcome (A : Type) :=
| Ok (a : A)
| Throw (e : Js.Exn)
| Stuck.
Arguments Ok {A} a.
Arguments Throw {A} e.
Arguments Stuck {A}.

Definition M (A : Type) : Type := World → Outcome A * World.

Definition ret {A} (a : A) : M A := λ w, (Ok a, w).

Definition bind {A B} (m : M A) (k : A → M B) : M B :=
  λ w, match m w with
       | (Ok a, w') => k a w'
       | (Throw e, w') => (Throw e, w')
       | (Stuck, w') => (Stuck, w')
       end.

Definition throw {A} (e : Js.Exn) : M A := λ w, (Throw e, w).

Definition stuck {A} : M A := λ w, (Stuck, w).

Declare Scope js_scope.
Delimit Scope js_scope with js.
Notation "'let*' x ':=' m 'in' k" := (bind m (λ x, k))
  (at level 10, x name, m at level 100, k at level 200) : js_scope.
Notation "m ';;;' k" := (bind m (λ _, k))
  (at level 100, k at level 200, right associativity) : js_scope.
Local Open Scope js_scope.

Definition set_heap (h : gmap loc HeapObj) (w : World) : World :=
  mkWorld h (tanaDb w) (calls w).

(** [new]: a fresh reference, bound to the object. *)
Definition alloc (o : HeapObj) : M loc :=
  λ w, let l := fresh (dom (heap w)) in (Ok l, set_heap (<[l := o]> (heap w)) w).

Definition read (l : loc) : M HeapObj :=
  λ w, match heap w !! l with
       | Some o => (Ok o, w)
       | None => (Stuck, w)
       end.

Definition write (l : loc) (o : HeapObj) : M unit :=
  λ w, (Ok (), set_heap (<[l := o]> (heap w)) w).

Definition readSelect (l : loc) : M SelectFields :=
  let* o := read l in
  match o with ObjSelect f => ret f | _ => stuck end.

Definition readJoins (l : loc) : M (list JoinClause) :=
  let* o := read l in
  match o with ArrJoin xs => ret xs | _ => stuck end.

Definition readOrders (l : loc) : M (list OrderEntry) :=
  let* o := read l in
  match o with ArrOrder xs => ret xs | _ => stuck end.

Definition readColumns (l : loc) : M (list ColumnBuilder) :=
  let* o := read l in
  match o with ArrColumn xs => ret xs | _ => stuck end.

Definition readInstance (l : loc) : M InstanceFields :=
  let* o := read l in
  match o with ObjInstance f => ret f | _ => stuck end.

(** [globalThis.__tanaDb] *)
Definition getRuntime : M (option Gateway) := λ w, (Ok (tanaDb w), w).

(** A call of an entry point of the gateway: the call is recorded, and
    the answer is returned or, when it is a rejection, thrown. *)
Definition gateway {A} (c : GatewayCall) (answer : list GatewayCall → Js.Exn + A)
  : M A :=
  λ w, let w' := mkWorld (heap w) (tanaDb w) (calls w ++ [c]) in
       match answer (calls w) with
       | inr a => (Ok a, w')
       | inl e => (Throw e, w')
       end.

Definition runtime_query (rt : Gateway) (sql : string) (ps : list SQLParam)
  : M (list Row) :=
  gateway (CallQuery sql ps) (λ past, gw_query rt past sql ps).

Definition runtime_execute (rt : Gateway) (sql : string) (ps : list SQLParam)
  : M Z :=
  gateway (CallExecute sql ps) (λ past, gw_execute rt past sql ps).

Definition runtime_executeReturning (rt : Gateway) (sql : string)
  (ps : list SQLParam) : M (list Row) :=
  gateway (CallExecuteReturning sql ps)
          (λ past, gw_executeReturning rt past sql ps).

(** What the [toSQL] of a builder returns. *)
Record Statement := mkStatement {
  st_sql : string;
  st_params : list SQLParam;
}.

End Runtime.

Import Runtime.
Local Open Scope js_scope.

(** ** The select builder ([query.ts], lines 348-601) *)

Module SelectQueryBuilder.

Definition set_from v (f : SelectFields) : SelectFields :=
  mkSelect v (_select f) (_where f) (_joins f) (_orderBy f) (_groupBy f)
           (_limit f) (_offset f).
Definition set_select v (f : SelectFields) : SelectFields :=
  mkSelect (_from f) v (_where f) (_joins f) (_orderBy f) (_groupBy f)
           (_limit f) (_offset f).
Definition set_where v (f : SelectFields) : SelectFields :=
  mkSelect (_from f) (_select f) v (_joins f) (_orderBy f) (_groupBy f)
           (_limit f) (_offset f).
Definition set_joins v (f : SelectFields) : SelectFields :=
  mkSelect (_from f) (_select f) (_where f) v (_orderBy f) (_groupBy f)
           (_limit f) (_offset f).
Definition set_orderBy v (f : SelectFields) : SelectFields :=
  mkSelect (_from f) (_select f) (_where f) (_joins f) v (_groupBy f)
           (_limit f) (_offset f).
Definition set_groupBy v (f : SelectFields) : SelectFields :=
  mkSelect (_from f) (_select f) (_where f) (_joins f) (_orderBy f) v
           (_limit f) (_offset f).
Definition set_limit v (f : SelectFields) : SelectFields :=
  mkSelect (_from f) (_select f) (_where f) (_joins f) (_orderBy f)
           (_groupBy f) v (_offset f).
Definition set_offset v (f : SelectFields) : SelectFields :=
  mkSelect (_from f) (_select f) (_where f) (_joins f) (_orderBy f)
           (_groupBy f) (_limit f) v.

(** [this._field] *)
Definition get {A} (this : loc) (field : SelectFields → A) : M A :=
  let* f := readSelect this in ret (field f).

(** [builder._field = v] *)
Definition assign {A} (builder : loc) (setter : A → SelectFields → SelectFields)
  (v : A) : M unit :=
  let* f := readSelect builder in write builder (ObjSelect (setter v f)).

(** [builder._field = this._field] *)
Definition copy {A} (builder this : loc) (field : SelectFields → A)
  (setter : A → SelectFields → SelectFields) : M unit :=
  let* v := get this field in assign builder setter v.

(** [new SelectQueryBuilder()]: the field initialisers allocate three
    empty arrays. *)
Definition new : M loc :=
  let* joins := alloc (ArrJoin []) in
  let* orderBy := alloc (ArrOrder []) in
  let* groupBy := alloc (ArrColumn []) in
  alloc (ObjSelect (mkSelect None SelectStar None joins orderBy groupBy
                             None None)).

(** [select(columns?)]: [columns || '*'] *)
Definition select (this : loc) (columns : option (list (string * SelectEntry)))
  : M loc :=
  let* builder := new in
  assign builder set_select
         (match columns with
          | Some entries => SelectObject entries
          | None => SelectStar
          end) ;;;
  copy builder this _from set_from ;;;
  copy builder this _where set_where ;;;
  copy builder this _joins set_joins ;;;
  copy builder this _orderBy set_orderBy ;;;
  copy builder this _groupBy set_groupBy ;;;
  copy builder this _limit set_limit ;;;
  copy builder this _offset set_offset ;;;
  ret builder.

Definition from (this : loc) (table : TableDefinition) : M loc :=
  let* builder := new in
  assign builder set_from (Some table) ;;;
  copy builder this _select set_select ;;;
  copy builder this _where set_where ;;;
  copy builder this _joins set_joins ;;;
  copy builder this _orderBy set_orderBy ;;;
  copy builder this _groupBy set_groupBy ;;;
  copy builder this _limit set_limit ;;;
  copy builder this _offset set_offset ;;;
  ret builder.

Definition where_ (this : loc) (condition : SQLCondition) : M loc :=
  let* builder := new in
  copy builder this _from set_from ;;;
  copy builder this _select set_select ;;;
  assign builder set_where (Some condition) ;;;
  copy builder this _joins set_joins ;;;
  copy builder this _orderBy set_orderBy ;;;
  copy builder this _groupBy set_groupBy ;;;
  copy builder this _limit set_limit ;;;
  copy builder this _offset set_offset ;;;
  ret builder.

(** The body shared by [innerJoin], [leftJoin] and [rightJoin], which
    differ in the [type] of the clause:
    [builder._joins = [...this._joins, { type, table, on }]]. *)
Definition join (type : JoinType) (this : loc) (table : TableDefinition)
  (on : SQLCondition) : M loc :=
  let* builder := new in
  copy builder this _from set_from ;;;
  copy builder this _select set_select ;;;
  copy builder this _where set_where ;;;
  (let* a := get this _joins in
   let* old := readJoins a in
   let* a' := alloc (ArrJoin (old ++ [mkJoin type table on])) in
   assign builder set_joins a') ;;;
  copy builder this _orderBy set_orderBy ;;;
  copy builder this _groupBy set_groupBy ;;;
  copy builder this _limit set_limit ;;;
  copy builder this _offset set_offset ;;;
  ret builder.

Definition innerJoin := join JoinInner.
Definition leftJoin := join JoinLeft.
Definition rightJoin := join JoinRight.

(** An argument of [orderBy]: an object with a direction, a column, or,
    outside the declared type, a string. *)
Inductive OrderArg :=
| OrderObject (o : OrderEntry)
| OrderColumn (c : ColumnBuilder)
| OrderString (s : string).

(** ['direction' in o ? o : { column: o, direction: 'asc' }]; the
    operator [in] raises a [TypeError] on a string. *)
Definition orderOf (o : OrderArg) : Js.Exn + OrderEntry :=
  match o with
  | OrderObject e => inr e
  | OrderColumn c => inr (mkOrder c Asc)
  | OrderString s =>
      inl (Js.TypeError
             ("Cannot use 'in' operator to search for 'direction' in " +:+ s))
  end.

(** [orders.map(...)]: the first argument that raises ends the call. *)
Fixpoint mapOrders (orders : list OrderArg) : Js.Exn + list OrderEntry :=
  match orders with
  | [] => inr []
  | o :: rest =>
      match orderOf o with
      | inl e => inl e
      | inr x =>
          match mapOrders rest with
          | inl e => inl e
          | inr xs => inr (x :: xs)
          end
      end
  end.

Definition orderBy (this : loc) (orders : list OrderArg) : M loc :=
  let* builder := new in
  copy builder this _from set_from ;;;
  copy builder this _select set_select ;;;
  copy builder this _where set_where ;;;
  copy builder this _joins set_joins ;;;
  (match mapOrders orders with
   | inl e => throw e
   | inr entries =>
       let* a := alloc (ArrOrder entries) in assign builder set_orderBy a
   end) ;;;
  copy builder this _groupBy set_groupBy ;;;
  copy builder this _limit set_limit ;;;
  copy builder this _offset set_offset ;;;
  ret builder.

(** [groupBy(...columns)]: the rest parameter is a new array. *)
Definition groupBy (this : loc) (cols : list ColumnBuilder) : M loc :=
  let* builder := new in
  copy builder this _from set_from ;;;
  copy builder this _select set_select ;;;
  copy builder this _where set_where ;;;
  copy builder this _joins set_joins ;;;
  copy builder this _orderBy set_orderBy ;;;
  (let* a := alloc (ArrColumn cols) in assign builder set_groupBy a) ;;;
  copy builder this _limit set_limit ;;;
  copy builder this _offset set_offset ;;;
  ret builder.

Definition limit (this : loc) (n : Z) : M loc :=
  let* builder := new in
  copy builder this _from set_from ;;;
  copy builder this _select set_select ;;;
  copy builder this _where set_where ;;;
  copy builder this _joins set_joins ;;;
  copy builder this _orderBy set_orderBy ;;;
  copy builder this _groupBy set_groupBy ;;;
  assign builder set_limit (Some n) ;;;
  copy builder this _offset set_offset ;;;
  ret builder.

Definition offset (this : loc) (n : Z) : M loc :=
  let* builder := new in
  copy builder this _from set_from ;;;
  copy builder this _select set_select ;;;
  copy builder this _where set_where ;;;
  copy builder this _joins set_joins ;;;
  copy builder this _orderBy set_orderBy ;;;
  copy builder this _groupBy set_groupBy ;;;
  copy builder this _limit set_limit ;;;
  assign builder set_offset (Some n) ;;;
  ret builder.

(** An entry of the column list of the SELECT clause. *)
Definition selectColumn (entry : string * SelectEntry) : string :=
  let '(alias, col) := entry in
  match col with
  | SelAggregate fn (Some column) =>
      Js.toUpperCase fn +:+ "(" +:+ Js.quoted (columnName column)
        +:+ ") AS " +:+ Js.quoted alias
  | SelAggregate fn None =>
      Js.toUpperCase fn +:+ "(*) AS " +:+ Js.quoted alias
  | SelColumn column =>
      Js.quoted (columnName column) +:+ " AS " +:+ Js.quoted alias
  | SelOther => Js.quoted alias
  end.

(** One iteration of the loop over [this._joins]. *)
Definition joinStep (st : Loop) (join : JoinClause) : Loop :=
  let onResult := toSQL (join_on join) (loop_idx st) in
  mkLoop (loop_parts st ++
            [Js.toUpperCase (JoinType_string (join_type join)) +:+ " JOIN "
               +:+ Js.quoted (tableName (join_table join)) +:+ " ON "
               +:+ sql onResult])
         (loop_params st ++ params onResult)
         (nextIndex onResult).

(** The body of [toSQL] once [_from] is known to be bound, on the values
    of the fields and the contents of the three arrays. *)
Definition compile (from : TableDefinition) (selection : Selection)
  (condition : option SQLCondition) (joins : list JoinClause)
  (orders : list OrderEntry) (groups : list ColumnBuilder)
  (limit offset : option Z) : Statement :=
  let parts0 :=
    match selection with
    | SelectStar => ["SELECT * FROM " +:+ Js.quoted (tableName from)]
    | SelectObject entries =>
        ["SELECT " +:+ Js.join ", " (selectColumn <$> entries) +:+ " FROM "
           +:+ Js.quoted (tableName from)]
    end in
  let st1 := fold_left joinStep joins (mkLoop parts0 [] 1) in
  let st2 :=
    match condition with
    | Some cond =>
        let whereResult := toSQL cond (loop_idx st1) in
        mkLoop (loop_parts st1 ++ ["WHERE " +:+ sql whereResult])
               (loop_params st1 ++ params whereResult)
               (nextIndex whereResult)
    | None => st1
    end in
  let parts3 :=
    if bool_decide (0 < length groups)%nat
    then loop_parts st2 ++
           ["GROUP BY " +:+
              Js.join ", " ((λ c, Js.quoted (columnName c)) <$> groups)]
    else loop_parts st2 in
  let parts4 :=
    if bool_decide (0 < length orders)%nat
    then parts3 ++
           ["ORDER BY " +:+
              Js.join ", "
                ((λ o, Js.quoted (columnName (order_column o)) +:+ " "
                       +:+ Js.toUpperCase
                             (OrderDirection_string (order_direction o)))
                   <$> orders)]
    else parts3 in
  let parts5 :=
    match limit with
    | Some n => parts4 ++ ["LIMIT " +:+ Js.toString n]
    | None => parts4
    end in
  let parts6 :=
    match offset with
    | Some n => parts5 ++ ["OFFSET " +:+ Js.toString n]
    | None => parts5
    end in
  mkStatement (Js.join " " parts6) (loop_params st2).

Definition toSQL (this : loc) : M Statement :=
  let* f := readSelect this in
  match _from f with
  | None => throw (Js.Error "FROM clause is required")
  | Some from =>
      let* joins := readJoins (_joins f) in
      let* groups := readColumns (_groupBy f) in
      let* orders := readOrders (_orderBy f) in
      ret (compile from (_select f) (_where f) joins orders groups
                   (_limit f) (_offset f))
  end.

Definition execute (this : loc) : M (list Row) :=
  let* q := toSQL this in
  let* runtime := getRuntime in
  match runtime with
  | None =>
      throw (Js.Error
        "Tana DB runtime not initialized. Are you running inside tana-edge?")
  | Some rt => runtime_query rt (st_sql q) (st_params q)
  end.

End SelectQueryBuilder.

(** ** The insert, update and delete builders ([query.ts], lines 603-864)

    These builders hold no array that a chain method extends; they are
    records, and a chain method returns the new record. *)

(** The loop [propNames.map(prop => { params.push(value); return
    `$${paramIndex++}` })]: the placeholders, with [params] and
    [paramIndex] as they are left. *)
Definition pushProps (value : string → SQLValue) (propNames : list string)
  (ps : list SQLParam) (paramIndex : Z) : list string * list SQLParam * Z :=
  fold_left
    (λ '(placeholders, ps, idx) prop,
       (placeholders ++ [placeholder idx], ps ++ [PValue (value prop)],
        idx + 1))
    propNames ([], ps, paramIndex).

(** [row[prop]] *)
Definition prop (row : Row) (name : string) : SQLValue :=
  match Js.get row name with
  | Js.Own v => v
  | Js.Inherited => VInherited name
  | Js.Absent => VUndefined
  end.

Module InsertQueryBuilder.

Record t := mk {
  _table : TableDefinition;
  _values : list Row;
  _returning : bool;
}.

Definition new (table : TableDefinition) : t := mk table [] false.

(** The argument of [values]: a row or an array of rows. *)
Inductive Data :=
| One (row : Row)
| Many (rows : list Row).

Definition values (this : t) (data : Data) : t :=
  mk (_table this)
     (match data with Many rows => rows | One row => [row] end)
     (_returning this).

Definition returning (this : t) : t :=
  mk (_table this) (_values this) true.

(** [this._values.map(row => `(${placeholders.join(', ')})`)], threading
    [params] and [paramIndex] through the rows. *)
Definition valueLists (propNames : list string) (rows : list Row)
  : list string * list SQLParam * Z :=
  fold_left
    (λ '(lists, ps, idx) row,
       let '(placeholders, ps', idx') := pushProps (prop row) propNames ps idx in
       (lists ++ ["(" +:+ Js.join ", " placeholders +:+ ")"], ps', idx'))
    rows ([], [], 1).

Definition toSQL (this : t) : Js.Exn + Statement :=
  match _values this with
  | [] => inl (Js.Error "No values to insert")
  | first :: _ =>
      let propNames := Js.keys first in
      let dbColumnNames := dbColumnName (_table this) <$> propNames in
      let columnList := Js.join ", " (Js.quoted <$> dbColumnNames) in
      let '(lists, ps, _) := valueLists propNames (_values this) in
      let sql := "INSERT INTO " +:+ Js.quoted (tableName (_table this))
                   +:+ " (" +:+ columnList +:+ ") VALUES "
                   +:+ Js.join ", " lists in
      let sql := if _returning this then sql +:+ " RETURNING *" else sql in
      inr (mkStatement sql ps)
  end.

Definition execute (this : t) : M (list Row) :=
  match toSQL this with
  | inl e => throw e
  | inr q =>
      let* runtime := getRuntime in
      match runtime with
      | None => throw (Js.Error "Tana DB runtime not initialized")
      | Some rt =>
          if _returning this
          then runtime_executeReturning rt (st_sql q) (st_params q)
          else runtime_execute rt (st_sql q) (st_params q) ;;; ret []
      end
  end.

End InsertQueryBuilder.

Module UpdateQueryBuilder.

Record t := mk {
  _table : TableDefinition;
  _set : Row;
  _where : option SQLCondition;
  _returning : bool;
}.

Definition new (table : TableDefinition) : t := mk table [] None false.

Definition set (this : t) (data : Row) : t :=
  mk (_table this) data (_where this) (_returning this).

Definition where_ (this : t) (condition : SQLCondition) : t :=
  mk (_table this) (_set this) (Some condition) (_returning this).

Definition returning (this : t) : t :=
  mk (_table this) (_set this) (_where this) true.

(** The loop building [setClause]: the assignments, with [params] and
    [paramIndex] as they are left. *)
Definition setClause (table : TableDefinition) (data : Row)
  (propNames : list string) : list string * list SQLParam * Z :=
  fold_left
    (λ '(assignments, ps, idx) name,
       (assignments ++
          [Js.quoted (dbColumnName table name) +:+ " = " +:+ placeholder idx],
        ps ++ [PValue (prop data name)], idx + 1))
    propNames ([], [], 1).

Definition toSQL (this : t) : Js.Exn + Statement :=
  let propNames := Js.keys (_set this) in
  if bool_decide (length propNames = 0%nat)
  then inl (Js.Error "No columns to update")
  else
    let '(assignments, ps, paramIndex) :=
      setClause (_table this) (_set this) propNames in
    let sql := "UPDATE " +:+ Js.quoted (tableName (_table this)) +:+ " SET "
                 +:+ Js.join ", " assignments in
    let '(sql, ps) :=
      match _where this with
      | Some cond =>
          let whereResult := Condition.toSQL cond paramIndex in
          (sql +:+ " WHERE " +:+ Condition.sql whereResult,
           ps ++ params whereResult)
      | None => (sql, ps)
      end in
    let sql := if _returning this then sql +:+ " RETURNING *" else sql in
    inr (mkStatement sql ps).

Definition execute (this : t) : M (list Row) :=
  match toSQL this with
  | inl e => throw e
  | inr q =>
      let* runtime := getRuntime in
      match runtime with
      | None => throw (Js.Error "Tana DB runtime not initialized")
      | Some rt =>
          if _returning this
          then runtime_executeReturning rt (st_sql q) (st_params q)
          else runtime_execute rt (st_sql q) (st_params q) ;;; ret []
      end
  end.

End UpdateQueryBuilder.

Module DeleteQueryBuilder.

Record t := mk {
  _table : TableDefinition;
  _where : option SQLCondition;
  _returning : bool;
}.

Definition new (table : TableDefinition) : t := mk table None false.

Definition where_ (this : t) (condition : SQLCondition) : t :=
  mk (_table this) (Some condition) (_returning this).

Definition returning (this : t) : t :=
  mk (_table this) (_where this) true.

Definition toSQL (this : t) : Statement :=
  let sql := "DELETE FROM " +:+ Js.quoted (tableName (_table this)) in
  let '(sql, ps) :=
    match _where this with
    | Some cond =>
        let whereResult := Condition.toSQL cond 1 in
        (sql +:+ " WHERE " +:+ Condition.sql whereResult, params whereResult)
    | None => (sql, [])
    end in
  let sql := if _returning this then sql +:+ " RETURNING *" else sql in
  mkStatement sql ps.

Definition execute (this : t) : M (list Row) :=
  let q := toSQL this in
  let* runtime := getRuntime in
  match runtime with
  | None => throw (Js.Error "Tana DB runtime not initialized")
  | Some rt =>
      if _returning this
      then runtime_executeReturning rt (st_sql q) (st_params q)
      else runtime_execute rt (st_sql q) (st_params q) ;;; ret []
  end.

End DeleteQueryBuilder.

(** The entry point [db] ([query.ts], lines 866-883). *)
Module db.

Definition select (columns : option (list (string * SelectEntry))) : M loc :=
  let* b := SelectQueryBuilder.new in SelectQueryBuilder.select b columns.

Definition insert (table : TableDefinition) := InsertQueryBuilder.new table.
Definition update (table : TableDefinition) := UpdateQueryBuilder.new table.
Definition delete (table : TableDefinition) := DeleteQueryBuilder.new table.

End db.

(** ** The model layer ([model.ts]) *)

(** The deferred query [QueryChain]. Each chain method copies the arrays
    of the receiver ([[...this._conditions]]) before it extends them, so a
    chain is a record and a chain method returns the new record. *)
Module QueryChain.

Record t := mk {
  _table : TableDefinition;
  _conditions : list SQLCondition;
  _orderByList : list (string * OrderDirection);
  _limitValue : option Z;
  _offsetValue : option Z;
}.

Definition new (table : TableDefinition) : t := mk table [] [] None None.

(** The loop over [Object.entries(conditions)]: a key under which
    [columns] holds nothing adds nothing. *)
Definition pushConditions (table : TableDefinition) (conditions : Row)
  (acc : list SQLCondition) : list SQLCondition :=
  fold_left
    (λ acc '(key, value),
       match getColumn table key with
       | Js.Own column => acc ++ [eq column value]
       | Js.Inherited => acc ++ [eq notAColumn value]
       | Js.Absent => acc
       end)
    conditions acc.

Definition where_ (this : t) (conditions : Row) : t :=
  mk (_table this)
     (pushConditions (_table this) conditions (_conditions this))
     (_orderByList this) (_limitValue this) (_offsetValue this).

Definition orderBy (this : t) (column : string) (direction : OrderDirection)
  : t :=
  mk (_table this) (_conditions this)
     (_orderByList this ++ [(column, direction)])
     (_limitValue this) (_offsetValue this).

Definition limit (this : t) (n : Z) : t :=
  mk (_table this) (_conditions this) (_orderByList this) (Some n)
     (_offsetValue this).

Definition offset (this : t) (n : Z) : t :=
  mk (_table this) (_conditions this) (_orderByList this) (_limitValue this)
     (Some n).

(** [this._conditions.length === 1 ? this._conditions[0]
      : and(...this._conditions)] *)
Definition combined (conditions : list SQLCondition) : SQLCondition :=
  match conditions with
  | [c] => c
  | _ => and conditions
  end.

Definition toSQL (this : t) : Statement :=
  let parts := ["SELECT * FROM " +:+ Js.quoted (tableName (_table this))] in
  let '(parts, ps) :=
    if bool_decide (0 < length (_conditions this))%nat
    then
      let result := Condition.toSQL (combined (_conditions this)) 1 in
      (parts ++ ["WHERE " +:+ sql result], params result)
    else (parts, []) in
  let parts :=
    if bool_decide (0 < length (_orderByList this))%nat
    then parts ++
           ["ORDER BY " +:+
              Js.join ", "
                ((λ '(column, direction),
                    Js.quoted (dbColumnName (_table this) column) +:+ " "
                      +:+ Js.toUpperCase (OrderDirection_string direction))
                   <$> _orderByList this)]
    else parts in
  let parts :=
    match _limitValue this with
    | Some n => parts ++ ["LIMIT " +:+ Js.toString n]
    | None => parts
    end in
  let parts :=
    match _offsetValue this with
    | Some n => parts ++ ["OFFSET " +:+ Js.toString n]
    | None => parts
    end in
  mkStatement (Js.join " " parts) ps.

Definition all (this : t) : M (list Row) :=
  let q := toSQL this in
  let* runtime := getRuntime in
  match runtime with
  | None => throw (Js.Error "Tana DB runtime not initialized")
  | Some rt => runtime_query rt (st_sql q) (st_params q)
  end.

(** [results[0] ?? null] *)
Definition first (this : t) : M (option Row) :=
  let* results := all (limit this 1) in ret (head results).

End QueryChain.

Module Model.

(** The loop that looks for the primary key: the property name of the
    first column whose flag is set. *)
Fixpoint findPrimaryKey (entries : list (string * ColumnBuilder))
  : option string :=
  match entries with
  | [] => None
  | (key, col) :: rest =>
      if isPrimaryKey col then Some key else findPrimaryKey rest
  end.

(** [!pkColumn]: no key was found, or the key is the empty string. *)
Definition missing (pkColumn : option string) : bool :=
  match pkColumn with
  | None => true
  | Some key => bool_decide (key = EmptyString)
  end.

(** [createInstance(table, attributes, persisted)] *)
Definition createInstance (table : TableDefinition) (attributes : Row)
  (persisted : bool) : M loc :=
  alloc (ObjInstance (mkInstance attributes table persisted)).

(** [this.prop = value] in a method of an instance. The instance is
    reached through the proxy of [createInstance], so the assignment goes
    to its [set] trap: when [prop in target._attributes] the value is
    stored in the attributes, and otherwise the trap answers [false],
    which in the strict mode of a module raises a [TypeError]. *)
Definition proxySet (this : loc) (prop : string) (value : SQLValue) : M unit :=
  let* self := readInstance this in
  if Js.has (_attributes self) prop
  then write this
         (ObjInstance (mkInstance (Js.set (_attributes self) prop value)
                                  (_table self) (_persisted self)))
  else throw (Js.TypeError
                ("'set' on proxy: trap returned falsish for property '"
                   +:+ prop +:+ "'")).

(** [eq(columns[pkColumn], pkValue)]; the entry exists, since the key
    was found in [columns]. *)
Definition pkCondition (table : TableDefinition) (pkColumn : string)
  (pkValue : SQLValue) : M SQLCondition :=
  match getColumn table pkColumn with
  | Js.Own pkColumnBuilder => ret (eq pkColumnBuilder pkValue)
  | Js.Inherited | Js.Absent => stuck
  end.

(** The methods of an instance. The [table] of the closure is the one
    kept in the field [_table]; [this._attributes] is read through the
    [get] trap of the proxy, which answers the field. *)
Definition update (this : loc) (attrs : Row) : M loc :=
  let* self := readInstance this in
  let table := _table self in
  let pkColumn := findPrimaryKey (columns table) in
  match pkColumn with
  | Some key =>
      if missing pkColumn
      then throw (Js.Error "Cannot update: no primary key defined")
      else
        let pkValue := prop (_attributes self) key in
        let* cond := pkCondition table key pkValue in
        let query :=
          UpdateQueryBuilder.returning
            (UpdateQueryBuilder.where_
               (UpdateQueryBuilder.set (db.update table) attrs) cond) in
        let* results := UpdateQueryBuilder.execute query in
        match results with
        | row :: _ => proxySet this "_attributes" (VObject row)
        | [] => ret ()
        end ;;;
        ret this
  | None => throw (Js.Error "Cannot update: no primary key defined")
  end.

Definition destroy (this : loc) : M unit :=
  let* self := readInstance this in
  let table := _table self in
  let pkColumn := findPrimaryKey (columns table) in
  match pkColumn with
  | Some key =>
      if missing pkColumn
      then throw (Js.Error "Cannot delete: no primary key defined")
      else
        let pkValue := prop (_attributes self) key in
        let* cond := pkCondition table key pkValue in
        DeleteQueryBuilder.execute
          (DeleteQueryBuilder.where_ (db.delete table) cond) ;;;
        proxySet this "_persisted" (VBoolean false)
  | None => throw (Js.Error "Cannot delete: no primary key defined")
  end.

Definition reload (this : loc) : M loc :=
  let* self := readInstance this in
  let table := _table self in
  let pkColumn := findPrimaryKey (columns table) in
  match pkColumn with
  | Some key =>
      if missing pkColumn
      then throw (Js.Error "Cannot reload: no primary key defined")
      else
        let pkValue := prop (_attributes self) key in
        let* cond := pkCondition table key pkValue in
        let* b0 := db.select None in
        let* b1 := SelectQueryBuilder.from b0 table in
        let* b2 := SelectQueryBuilder.where_ b1 cond in
        let* results := SelectQueryBuilder.execute b2 in
        match results with
        | [] => throw (Js.Error "Record not found")
        | row :: _ => proxySet this "_attributes" (VObject row) ;;; ret this
        end
  | None => throw (Js.Error "Cannot reload: no primary key defined")
  end.

(** The methods of [model(table)]. *)
Definition find (table : TableDefinition) (id : SQLValue) : M (option loc) :=
  let pkColumn := findPrimaryKey (columns table) in
  match pkColumn with
  | Some key =>
      if missing pkColumn
      then throw (Js.Error "Cannot find: no primary key defined")
      else
        let* cond := pkCondition table key id in
        let* b0 := db.select None in
        let* b1 := SelectQueryBuilder.from b0 table in
        let* b2 := SelectQueryBuilder.where_ b1 cond in
        let* results := SelectQueryBuilder.execute b2 in
        match results with
        | [] => ret None
        | row :: _ =>
            let* i := createInstance table row true in ret (Some i)
        end
  | None => throw (Js.Error "Cannot find: no primary key defined")
  end.

Definition where_ (table : TableDefinition) (attrs : Row) : QueryChain.t :=
  QueryChain.where_ (QueryChain.new table) attrs.

Definition findBy (table : TableDefinition) (attrs : Row) : M (option loc) :=
  let chain := QueryChain.new table in
  let* result := QueryChain.first (QueryChain.where_ chain attrs) in
  match result with
  | None => ret None
  | Some row => let* i := createInstance table row true in ret (Some i)
  end.

Definition build (table : TableDefinition) (attrs : Row) : M loc :=
  createInstance table attrs false.

End Model.

(** ** The table of the scenarios *)

Definition posts_id : ColumnBuilder := primaryKey (uuid "id").
Definition posts_title : ColumnBuilder := notNull (text "title").
Definition posts_published : ColumnBuilder :=
  Schema.default (boolean "published") (VBoolean false).

Definition posts : TableDefinition :=
  table "posts"
    [("id", posts_id); ("title", posts_title); ("published", posts_published)].

(** The world before anything is allocated, with or without a gateway. *)
Definition emptyWorld (rt : option Gateway) : World := mkWorld ∅ rt [].

(** ** Reasoning about computations *)

Module Logic.

(** [wp m Q w]: run from the world [w], the computation [m] ends with an
    outcome and in a world that satisfy [Q]. *)
Definition wp {A} (m : M A) (Q : Outcome A → World → Prop) (w : World)
  : Prop :=
  Q (m w).1 (m w).2.

(** [w'] has every object of [w], unchanged, the same gateway and the
    same record of calls. *)
Definition extends (w w' : World) : Prop :=
  heap w ⊆ heap w' ∧ tanaDb w' = tanaDb w ∧ calls w' = calls w.

(** What a select builder denotes: its fields and the contents of its
    three arrays. *)
Record View := mkView {
  v_from : option TableDefinition;
  v_select : Selection;
  v_where : option SQLCondition;
  v_joins : list JoinClause;
  v_orderBy : list OrderEntry;
  v_groupBy : list ColumnBuilder;
  v_limit : option Z;
  v_offset : option Z;
}.

(** The reference [l] designates, in the heap [h], a select builder that
    denotes [v]. *)
Definition represents (h : gmap loc HeapObj) (l : loc) (v : View) : Prop :=
  ∃ f, h !! l = Some (ObjSelect f)
       ∧ h !! _joins f = Some (ArrJoin (v_joins v))
       ∧ h !! _orderBy f = Some (ArrOrder (v_orderBy v))
       ∧ h !! _groupBy f = Some (ArrColumn (v_groupBy v))
       ∧ _from f = v_from v ∧ _select f = v_select v
       ∧ _where f = v_where v
       ∧ _limit f = v_limit v ∧ _offset f = v_offset v.

(** The statement a view compiles to. *)
Definition compileView (v : View) : Js.Exn + Statement :=
  match v_from v with
  | None => inl (Js.Error "FROM clause is required")
  | Some from =>
      inr (SelectQueryBuilder.compile from (v_select v) (v_where v)
             (v_joins v) (v_orderBy v) (v_groupBy v)
             (v_limit v) (v_offset v))
  end.

(** The chain calls of a select builder. *)
Inductive Chain :=
| ChainSelect (columns : option (list (string * SelectEntry)))
| ChainFrom (table : TableDefinition)
| ChainWhere (condition : SQLCondition)
| ChainInnerJoin (table : TableDefinition) (on : SQLCondition)
| ChainLeftJoin (table : TableDefinition) (on : SQLCondition)
| ChainRightJoin (table : TableDefinition) (on : SQLCondition)
| ChainOrderBy (orders : list SelectQueryBuilder.OrderArg)
| ChainGroupBy (cols : list ColumnBuilder)
| ChainLimit (n : Z)
| ChainOffset (n : Z).

Definition chain (this : loc) (c : Chain) : M loc :=
  match c with
  | ChainSelect columns => SelectQueryBuilder.select this columns
  | ChainFrom table => SelectQueryBuilder.from this table
  | ChainWhere condition => SelectQueryBuilder.where_ this condition
  | ChainInnerJoin table on => SelectQueryBuilder.innerJoin this table on
  | ChainLeftJoin table on => SelectQueryBuilder.leftJoin this table on
  | ChainRightJoin table on => SelectQueryBuilder.rightJoin this table on
  | ChainOrderBy orders => SelectQueryBuilder.orderBy this orders
  | ChainGroupBy cols => SelectQueryBuilder.groupBy this cols
  | ChainLimit n => SelectQueryBuilder.limit this n
  | ChainOffset n => SelectQueryBuilder.offset this n
  end.

(** What a chain call makes of the view of its receiver. *)
Definition derive (v : View) (c : Chain) : Js.Exn + View :=
  let join type table on :=
    mkView (v_from v) (v_select v) (v_where v)
           (v_joins v ++ [mkJoin type table on])
           (v_orderBy v) (v_groupBy v) (v_limit v) (v_offset v) in
  match c with
  | ChainSelect columns =>
      inr (mkView (v_from v)
                  (match columns with
                   | Some entries => SelectObject entries
                   | None => SelectStar
                   end)
                  (v_where v) (v_joins v) (v_orderBy v) (v_groupBy v)
                  (v_limit v) (v_offset v))
  | ChainFrom table =>
      inr (mkView (Some table) (v_select v) (v_where v) (v_joins v)
                  (v_orderBy v) (v_groupBy v) (v_limit v) (v_offset v))
  | ChainWhere condition =>
      inr (mkView (v_from v) (v_select v) (Some condition) (v_joins v)
                  (v_orderBy v) (v_groupBy v) (v_limit v) (v_offset v))
  | ChainInnerJoin table on => inr (join JoinInner table on)
  | ChainLeftJoin table on => inr (join JoinLeft table on)
  | ChainRightJoin table on => inr (join JoinRight table on)
  | ChainOrderBy orders =>
      match SelectQueryBuilder.mapOrders orders with
      | inl e => inl e
      | inr entries =>
          inr (mkView (v_from v) (v_select v) (v_where v) (v_joins v)
                      entries (v_groupBy v) (v_limit v) (v_offset v))
      end
  | ChainGroupBy cols =>
      inr (mkView (v_from v) (v_select v) (v_where v) (v_joins v)
                  (v_orderBy v) cols (v_limit v) (v_offset v))
  | ChainLimit n =>
      inr (mkView (v_from v) (v_select v) (v_where v) (v_joins v)
                  (v_orderBy v) (v_groupBy v) (Some n) (v_offset v))
  | ChainOffset n =>
      inr (mkView (v_from v) (v_select v) (v_where v) (v_joins v)
                  (v_orderBy v) (v_groupBy v) (v_limit v) (Some n))
  end.

(** The view of a builder just made by [new SelectQueryBuilder()]. *)
Definition emptyView : View := mkView None SelectStar None [] [] [] None None.

End Logic.

(** ** The scenarios *)

Module Scenarios.


(** The builder of [db.select().from(posts)], made in the empty world. *)
Definition started : Outcome loc * World :=
  (let* b0 := db.select None in SelectQueryBuilder.from b0 posts)
    (emptyWorld None).

(** The chain [db.select().from(posts).where(eq(posts.published, true))
    .orderBy(...orders).limit(10).toSQL()]. *)
Definition selectPosts (orders : list SelectQueryBuilder.OrderArg)
  : M Statement :=
  let* b0 := db.select None in
  let* b1 := SelectQueryBuilder.from b0 posts in
  let* b2 := SelectQueryBuilder.where_ b1 (eq posts_published (VBoolean true)) in
  let* b3 := SelectQueryBuilder.orderBy b2 orders in
  let* b4 := SelectQueryBuilder.limit b3 10 in
  SelectQueryBuilder.toSQL b4.

(** [SELECT * FROM "posts" WHERE "published" = $1 ORDER BY "title" DESC
    LIMIT 10], with the parameters [[true]]. *)
Definition selectPostsStatement : Statement :=
  mkStatement
    ("SELECT * FROM " +:+ Js.quoted "posts" +:+ " WHERE "
       +:+ Js.quoted "published" +:+ " = $1 ORDER BY " +:+ Js.quoted "title"
       +:+ " DESC LIMIT 10")
    [PValue (VBoolean true)].

(** The statement [SELECT * FROM "table" WHERE "column" = $1] with the
    parameter [value]: what [reload] and [find] send. *)
Definition selectByKey (table : TableDefinition) (column : ColumnBuilder)
  (value : SQLValue) : Statement :=
  mkStatement
    (Js.join " "
       ["SELECT * FROM " +:+ Js.quoted (tableName table);
        "WHERE " +:+ Js.quoted (columnName column) +:+ " = $1"])
    [PValue value].

(** A gateway that answers no row and no affected row. *)
Definition silentGateway : Gateway :=
  mkGateway (λ _ _ _, inr []) (λ _ _ _, inr 0) (λ _ _ _, inr []).

(** The builder of [db.select()], made in the empty world with a gateway. *)
Definition unbound : Outcome loc * World :=
  db.select None (emptyWorld (Some silentGateway)).

(** A table without primary key, and an instance of it. *)
Definition notes : TableDefinition :=
  table "notes" [("body", text "body"); ("rank", integer "rank")].

Definition noteInstance : Outcome loc * World :=
  Model.build notes [("body", VString "x")] (emptyWorld (Some silentGateway)).

(** An instance of [posts], as [find] makes it from a row. *)
Definition postInstance : Outcome loc * World :=
  Model.createInstance posts
    [("id", VString "p1"); ("title", VString "Hello")] true
    (emptyWorld (Some silentGateway)).

End Scenarios.

Import Scenarios.

(** ** The statement of an insert, from its rows *)

Module InsertDefs.
Import InsertQueryBuilder.

(** The chain calls of an insert builder, and a chain of such calls on
    [db.insert(table)]. *)
Inductive Call :=
| CallValues (data : Data)
| CallReturning.

Definition call (this : t) (c : Call) : t :=
  match c with
  | CallValues data => values this data
  | CallReturning => returning this
  end.

Definition chained (table : TableDefinition) (cs : list Call) : t :=
  fold_left call cs (db.insert table).

(** Whether [returning()] is one of the calls. *)
Definition returningCalled (cs : list Call) : bool :=
  existsb (λ c, match c with CallReturning => true | _ => false end) cs.

(** The physical name that the schema of a table gives to a key: the
    [columnName] of the column declared under the key; the key itself
    when no column is declared under it, or one without a name. *)
Inductive physical (table : TableDefinition) (key : string) : string → Prop :=
| physical_column column :
    getColumn table key = Js.Own column →
    columnName column ≠ EmptyString →
    physical table key (columnName column)
| physical_unnamed column :
    getColumn table key = Js.Own column →
    columnName column = EmptyString →
    physical table key key
| physical_undeclared :
    (∀ column, getColumn table key ≠ Js.Own column) →
    physical table key key.

(** The statement of an insert, written from the physical names [names]
    of the keys of the first row: the names, one group of placeholders
    per row, numbered from 1 through the rows. *)
Definition insertText (table : TableDefinition) (names : list string)
  (rows : list Row) : string :=
  let n := Z.of_nat (length names) in
  "INSERT INTO " +:+ Js.quoted (tableName table) +:+ " ("
    +:+ Js.join ", " (Js.quoted <$> names)
    +:+ ") VALUES "
    +:+ Js.join ", "
          (imap (λ r _,
                   "(" +:+ Js.join ", "
                             (imap (λ j _, placeholder
                                             (1 + Z.of_nat r * n + Z.of_nat j))
                                   names)
                       +:+ ")")
                rows).

(** A table whose properties [readTime] and [title] are declared with
    the physical names [read_time] and [headline]. *)
Definition articles : TableDefinition :=
  table "articles"
    [("id", primaryKey (uuid "id"));
     ("readTime", integer "read_time");
     ("title", notNull (text "headline"))].

Definition insertParams (first : Row) (rows : list Row) : list SQLParam :=
  rows ≫= (λ row, (λ name, PValue (prop row name)) <$> Js.keys first).

End InsertDefs.

(** ** The statement of [findBy], from its attributes *)

Module FindByDefs.

(** The entries of [attrs] under whose key the [columns] of the table
    hold something, with what they hold, in the order of [attrs]. *)
Definition matched (table : TableDefinition) (attrs : Row)
  : list (ColumnBuilder * SQLValue) :=
  omap (λ '(key, value),
          match getColumn table key with
          | Js.Own column => Some (column, value)
          | Js.Inherited => Some (notAColumn, value)
          | Js.Absent => None
          end)
       attrs.

(** The number counted up to from [k] in [n] steps of one: numbers stop
    counting at [2 ** 53]. *)
Definition counted (k : Z) (n : nat) : Z := Z.min (k + Z.of_nat n) Js.exact.

(** The predicates ["column" = $n] of these entries, numbered from 1. *)
Definition predicates (cols : list (ColumnBuilder * SQLValue))
  : list string :=
  imap (λ i cv, Js.quoted (columnName cv.1) +:+ " = "
                  +:+ placeholder (counted 1 i)) cols.

(** The WHERE clause of a [QueryChain]: none without predicate, the
    predicate when there is one, the conjunction in parentheses when there
    are several. *)
Definition whereClause (cols : list (ColumnBuilder * SQLValue))
  : list string :=
  match predicates cols with
  | [] => []
  | [p] => ["WHERE " +:+ p]
  | ps => ["WHERE (" +:+ Js.join " AND " ps +:+ ")"]
  end.

(** The statement [findBy(attrs)] sends. *)
Definition findByStatement (table : TableDefinition) (attrs : Row)
  : Statement :=
  mkStatement
    (Js.join " "
       (["SELECT * FROM " +:+ Js.quoted (tableName table)]
          ++ whereClause (matched table attrs) ++ ["LIMIT 1"]))
    ((λ cv, PValue cv.2) <$> matched table attrs).

(** A gateway whose [query] answers the two rows [first] and [second]. *)
Definition twoRows (first second : Row) : Gateway :=
  mkGateway (λ _ _ _, inr [first; second]) (λ _ _ _, inr 0) (λ _ _ _, inr []).

End FindByDefs.

(** ** The statement of an update, from its keys *)

Module UpdateDefs.
Import UpdateQueryBuilder InsertDefs.

(** The statement of an update, written from the keys of the [set]
    object and their physical names [names]: one assignment per key, to
    its physical name, numbered from 1; the WHERE condition compiled from
    the index after the last assignment; the values of the keys, then the
    parameters of the condition. *)
Definition updateStatement (this : t) (names : list string) : Statement :=
  let keys := Js.keys (_set this) in
  let n := Z.of_nat (length keys) in
  let text :=
    "UPDATE " +:+ Js.quoted (tableName (_table this)) +:+ " SET "
      +:+ Js.join ", "
            (imap (λ i name, Js.quoted name
                               +:+ " = " +:+ placeholder (1 + Z.of_nat i))
                  names) in
  let values := (λ key, PValue (prop (_set this) key)) <$> keys in
  let '(text, ps) :=
    match _where this with
    | Some cond =>
        (text +:+ " WHERE " +:+ sql (Condition.toSQL cond (1 + n)),
         values ++ params (Condition.toSQL cond (1 + n)))
    | None => (text, values)
    end in
  mkStatement (if _returning this then text +:+ " RETURNING *" else text) ps.

End UpdateDefs.

(** ** The [execute] of the insert, update and delete builders *)

Module Dispatch.

(** The body that the [execute] of the insert, update and delete builders
    share, on what [toSQL] returned and on the [_returning] flag. *)
Definition writeExecute (compiled : Js.Exn + Statement) (returning : bool)
  : M (list Row) :=
  match compiled with
  | inl e => throw e
  | inr q =>
      let* runtime := getRuntime in
      match runtime with
      | None => throw (Js.Error "Tana DB runtime not initialized")
      | Some rt =>
          if returning
          then runtime_executeReturning rt (st_sql q) (st_params q)
          else runtime_execute rt (st_sql q) (st_params q) ;;; ret []
      end
  end.

(** The call that a builder makes for a statement. *)
Definition writeCall (returning : bool) (q : Statement) : GatewayCall :=
  if returning then CallExecuteReturning (st_sql q) (st_params q)
  else CallExecute (st_sql q) (st_params q).

(** What [execute] leaves unchanged, and what it may add: the heap and
    the gateway are those of the call, and the record of the calls is the
    same or has the call [c] more. *)
Definition oneCall (c : option GatewayCall) (w w' : World) : Prop :=
  heap w' = heap w ∧ tanaDb w' = tanaDb w
  ∧ calls w' = calls w ++ option_list c.

(** [execute] compiles, looks the gateway up and sends the statement:
    - when [toSQL] throws, so does [execute], and nothing is sent;
    - when no gateway is bound, [execute] throws and nothing is sent;
    - otherwise one call is recorded, [executeReturning] for a builder
      with [returning()] and [execute] for one without; the rows of the
      answer are returned in the first case and no row in the second,
      whatever the number of affected rows is; a rejection is thrown. *)
Definition dispatches (execute : M (list Row)) (compiled : Js.Exn + Statement)
  (returning : bool) : Prop :=
  ∀ w,
    match compiled, tanaDb w with
    | inl e, _ => execute w = (Throw e, w)
    | inr _, None =>
        execute w = (Throw (Js.Error "Tana DB runtime not initialized"), w)
    | inr q, Some rt =>
        oneCall (Some (writeCall returning q)) w (execute w).2
        ∧ (execute w).1
          = if returning
            then match gw_executeReturning rt (calls w) (st_sql q)
                                           (st_params q) with
                 | inr rows => Ok rows
                 | inl e => Throw e
                 end
            else match gw_execute rt (calls w) (st_sql q) (st_params q) with
                 | inr _ => Ok []
                 | inl e => Throw e
                 end
    end.

End Dispatch.

(** ** Sequences of column modifiers ([schema.ts], lines 56-130) *)

Module Columns.

(** The fluent modifiers of a column ([schema.ts], lines 56-130). *)
Inductive Modifier :=
| NotNull
| Default (value : SQLValue)
| DefaultNow
| DefaultRandom
| PrimaryKey
| References (ref : string).

Definition modify (c : ColumnBuilder) (m : Modifier) : ColumnBuilder :=
  match m with
  | NotNull => notNull c
  | Default value => Schema.default c value
  | DefaultNow => defaultNow c
  | DefaultRandom => defaultRandom c
  | PrimaryKey => primaryKey c
  | References ref => references c ref
  end.

(** [column.m1().m2()...] *)
Definition modified (c : ColumnBuilder) (ms : list Modifier) : ColumnBuilder :=
  fold_left modify ms c.

Definition setsNotNull (m : Modifier) : bool :=
  match m with NotNull | PrimaryKey => true | _ => false end.

Definition setsDefault (m : Modifier) : bool :=
  match m with Default _ | DefaultNow | DefaultRandom => true | _ => false end.

Definition setsPrimaryKey (m : Modifier) : bool :=
  match m with PrimaryKey => true | _ => false end.

End Columns.

(** ** Rows read through the keys of the first row *)

Module InsertMore.

(** A row cut down to the keys [names]: under each of them, what the row
    holds there. *)
Definition project (names : list string) (row : Row) : Row :=
  (λ name, (name, prop row name)) <$> names.

End InsertMore.

(** ** Sequences of chain calls on a select builder *)

Module Sequences.
Import Logic.

(** A select builder taken through chain calls, one after the other, from
    the builder [this]. *)
Fixpoint runChain (this : loc) (cs : list Chain) : M loc :=
  match cs with
  | [] => ret this
  | c :: cs' => let* b := chain this c in runChain b cs'
  end.

(** [db.select(columns).c1(...).c2(...) ... .toSQL()] *)
Definition compiled (columns : option (list (string * SelectEntry)))
  (cs : list Chain) : M Statement :=
  let* b := db.select columns in
  let* b' := runChain b cs in
  SelectQueryBuilder.toSQL b'.

(** What the calls make of a view, up to the first call that throws. *)
Fixpoint deriveAll (v : View) (cs : list Chain) : Js.Exn + View :=
  match cs with
  | [] => inr v
  | c :: cs' =>
      match derive v c with
      | inl e => inl e
      | inr v' => deriveAll v' cs'
      end
  end.

(** The view of the builder of [db.select(columns)]. *)
Definition selected (columns : option (list (string * SelectEntry))) : View :=
  mkView None
         (match columns with
          | Some entries => SelectObject entries
          | None => SelectStar
          end)
         None [] [] [] None None.

(** A call that sets again the field that the call before it has set:
    two [where], two [from], two [select], two [groupBy], two [limit], two
    [offset], or two [orderBy] of which the first does not throw. *)
Definition overrides (c c' : Chain) : bool :=
  match c, c' with
  | ChainSelect _, ChainSelect _
  | ChainFrom _, ChainFrom _
  | ChainWhere _, ChainWhere _
  | ChainGroupBy _, ChainGroupBy _
  | ChainLimit _, ChainLimit _
  | ChainOffset _, ChainOffset _ => true
  | ChainOrderBy orders, ChainOrderBy _ =>
      match SelectQueryBuilder.mapOrders orders with
      | inr _ => true
      | inl _ => false
      end
  | _, _ => false
  end.

End Sequences.

(** ** Sequences of chain calls on a [QueryChain] *)

Module QueryChainCalls.
Import QueryChain.

(** The chain calls of a [QueryChain]; the direction of [orderBy] is
    optional and ['asc'] by default. *)
Inductive Call :=
| Where (attrs : Row)
| OrderBy (column : string) (direction : option OrderDirection)
| Limit (n : Z)
| Offset (n : Z).

Definition call (this : t) (c : Call) : t :=
  match c with
  | Where attrs => where_ this attrs
  | OrderBy column direction =>
      orderBy this column
              (match direction with Some d => d | None => Asc end)
  | Limit n => limit this n
  | Offset n => offset this n
  end.

(** [new QueryChain(table).c1(...).c2(...)...] *)
Definition chained (table : TableDefinition) (cs : list Call) : t :=
  fold_left call cs (new table).

End QueryChainCalls.

(** ** Records: the rest of the model layer ([model.ts], lines 195-450) *)

Module Records.
Import Model.

(** [delete o[key]] *)
Definition remove {A} (o : list (string * A)) (key : string)
  : list (string * A) :=
  filter (λ entry, entry.1 ≠ key) o.

(** [model(table).create(attrs)] *)
Definition create (table : TableDefinition) (attrs : Row) : M loc :=
  let* results :=
    InsertQueryBuilder.execute
      (InsertQueryBuilder.returning
         (InsertQueryBuilder.values (db.insert table)
                                    (InsertQueryBuilder.One attrs))) in
  match results with
  | [] => throw (Js.Error "Insert failed")
  | row :: _ => createInstance table row true
  end.

(** [results.map((r) => createInstance(table, r))] *)
Fixpoint hydrate (table : TableDefinition) (rows : list Row) : M (list loc) :=
  match rows with
  | [] => ret []
  | row :: rest =>
      let* i := createInstance table row true in
      let* others := hydrate table rest in
      ret (i :: others)
  end.

(** [model(table).all()] *)
Definition all (table : TableDefinition) : M (list loc) :=
  let* b0 := db.select None in
  let* b1 := SelectQueryBuilder.from b0 table in
  let* results := SelectQueryBuilder.execute b1 in
  hydrate table results.

(** The method [save] of an instance. *)
Definition save (this : loc) : M loc :=
  let* self := readInstance this in
  let table := _table self in
  (if _persisted self
   then
     let pkColumn := findPrimaryKey (columns table) in
     match pkColumn with
     | Some key =>
         if missing pkColumn then ret ()
         else
           let updateAttrs := remove (_attributes self) key in
           update this updateAttrs ;;; ret ()
     | None => ret ()
     end
   else
     let* results :=
       InsertQueryBuilder.execute
         (InsertQueryBuilder.returning
            (InsertQueryBuilder.values (db.insert table)
                                       (InsertQueryBuilder.One
                                          (_attributes self)))) in
     match results with
     | row :: _ =>
         proxySet this "_attributes" (VObject row) ;;;
         proxySet this "_persisted" (VBoolean true)
     | [] => ret ()
     end) ;;;
  ret this.

(** The properties of the object that [createInstance] wraps in a proxy:
    its three fields and its six methods. *)
Definition members : list string :=
  ["_attributes"; "_table"; "_persisted"; "get"; "update"; "destroy";
   "reload"; "save"; "toJSON"].

(** What reading a property of an instance gives: a member of the
    wrapped object, or a value. *)
Inductive Got :=
| GotMember (name : string)
| GotValue (v : SQLValue).

(** [instance.prop], through the [get] trap of the proxy: a member of the
    wrapped object, own or inherited, when [prop in target]; the attribute
    when [prop in target._attributes]; [undefined] otherwise. *)
Definition proxyGet (this : loc) (name : string) : M Got :=
  let* self := readInstance this in
  if bool_decide (name ∈ members ++ Js.inherited)
  then ret (GotMember name)
  else if Js.has (_attributes self) name
       then ret (GotValue (prop (_attributes self) name))
       else ret (GotValue VUndefined).

(** [instance.get(key)] *)
Definition get (this : loc) (key : string) : M SQLValue :=
  let* self := readInstance this in ret (prop (_attributes self) key).

(** [instance.toJSON()]: a copy of the attributes. *)
Definition toJSON (this : loc) : M Row :=
  let* self := readInstance this in ret (_attributes self).

(** The statement [DELETE FROM "table" WHERE "column" = $1] with the
    parameter [value]: what [destroy] sends. *)
Definition deleteByKey (table : TableDefinition) (column : ColumnBuilder)
  (value : SQLValue) : Statement :=
  DeleteQueryBuilder.toSQL
    (DeleteQueryBuilder.where_ (db.delete table) (eq column value)).

(** The object at [this] is an instance with the property [P]. *)
Definition holds (this : loc) (P : InstanceFields → Prop) (w : World) : Prop :=
  ∃ self, heap w !! this = Some (ObjInstance self) ∧ P self.

(** The instance at [this] is an instance of the table [table] with the
    persisted flag [persisted]. *)
Definition kept (this : loc) (table : TableDefinition) (persisted : bool)
  : World → Prop :=
  holds this (λ self, _table self = table ∧ _persisted self = persisted).

(** The message of the [TypeError] of an assignment that the [set] trap
    of a proxy refuses. *)
Definition refused (name : string) : Js.Exn :=
  Js.TypeError
    ("'set' on proxy: trap returned falsish for property '" +:+ name +:+ "'").

(** The world after one more call of the gateway. *)
Definition called (c : GatewayCall) (w : World) : World :=
  mkWorld (heap w) (tanaDb w) (calls w ++ [c]).

(** A table whose primary key is declared under the empty property name. *)
Definition unnamedKey : TableDefinition :=
  table "things" [(EmptyString, primaryKey (uuid "id")); ("label", text "label")].

(** A gateway whose [query] and [executeReturning] answer the rows
    [rows], and whose [execute] reports one affected row. *)
Definition answering (rows : list Row) : Gateway :=
  mkGateway (λ _ _ _, inr rows) (λ _ _ _, inr 1) (λ _ _ _, inr rows).

End Records.

(** * Properties *)

(** ** Numbers *)

Module JsFacts.

Lemma ulp_exact (n : Z) : (0 ≤ n < Js.exact)%Z → Js.ulp n = 1.
Proof.
  intros [Hn Hlt]. unfold Js.ulp. rewrite Z.abs_eq by done.
  destruct (decide (n = 0)) as [->|Hne]; [done|].
  assert (Z.log2 n < 53) by (apply Z.log2_lt_pow2; [lia | exact Hlt]).
  by rewrite Z.max_l by lia.
Qed.

(** Up to [2 ** 53] every integer is a number. *)
Lemma round_exact (n : Z) : (0 ≤ n ≤ Js.exact)%Z → Js.round n = n.
Proof.
  intros [Hn Hle].
  destruct (decide (n = Js.exact)) as [->|Hne]; [by vm_compute|].
  unfold Js.round. rewrite ulp_exact by lia.
  rewrite Z.div_1_r, Z.mod_1_r. rewrite bool_decide_true by lia. lia.
Qed.

(** Up to [2 ** 53] the sum of two numbers is their sum. *)
Lemma add_exact (x y : Z) :
  (0 ≤ x + y ≤ Js.exact)%Z → Js.add x y = x + y.
Proof.
  intros Hsum. unfold Js.add. case_decide; [lia | by apply round_exact].
Qed.

(** From [2 ** 53], adding one changes nothing. *)
Lemma add_1_stalls : Js.add Js.exact 1 = Js.exact.
Proof. by vm_compute. Qed.

(** Sums past [2 ** 53]: [2 ** 53 + 2 + 1] is half way between two
    numbers and goes to the even one, [2 ** 53 + 4]; [2 ** 54 + 1] goes
    back to [2 ** 54]. *)
Lemma add_rounds :
  Js.add 9007199254740994 1 = 9007199254740996
  ∧ Js.add 18014398509481984 1 = 18014398509481984
  ∧ Js.add (-9007199254740992) (-1) = -9007199254740992.
Proof. by vm_compute. Qed.

(** Numbers as a template literal renders them: the digits up to
    [2 ** 53], the shortest decimal that reads back beyond, and an
    exponent from [10 ** 21]. *)
Lemma toString_renders :
  Js.toString 10 = "10"
  ∧ Js.toString (-7) = "-7"
  ∧ Js.toString 9007199254740992 = "9007199254740992"
  ∧ Js.toString 1152921504606846976 = "1152921504606847000"
  ∧ Js.toString 1000000000000000000000 = "1e+21"
  ∧ Js.toString 1180591620717411303424 = "1.1805916207174113e+21"
  ∧ Js.toString 99999999999999991611392 = "1e+23".
Proof. by vm_compute. Qed.

End JsFacts.

(** ** The condition tree *)

Module ConditionFacts.

(** Induction on a condition tree, with the property on every child of a
    conjunction or disjunction. *)
Section Induction.
Variable P : SQLCondition → Prop.
Hypothesis HComparison : ∀ c op v, P (ComparisonExpr c op v).
Hypothesis HIn : ∀ c vs, P (InExpr c vs).
Hypothesis HNotIn : ∀ c vs, P (NotInExpr c vs).
Hypothesis HIsNull : ∀ c, P (IsNullExpr c).
Hypothesis HIsNotNull : ∀ c, P (IsNotNullExpr c).
Hypothesis HBetween : ∀ c lo hi, P (BetweenExpr c lo hi).
Hypothesis HAnd : ∀ cs, Forall P cs → P (AndExpr cs).
Hypothesis HOr : ∀ cs, Forall P cs → P (OrExpr cs).
Hypothesis HNot : ∀ c, P c → P (NotExpr c).

Lemma condition_ind : ∀ c, P c.
Proof.
  fix IH 1. intros [c op v|c vs|c vs|c|c|c lo hi|cs|cs|c].
  - apply HComparison.
  - apply HIn.
  - apply HNotIn.
  - apply HIsNull.
  - apply HIsNotNull.
  - apply HBetween.
  - apply HAnd. induction cs as [|c cs IHcs]; constructor; [apply IH | exact IHcs].
  - apply HOr. induction cs as [|c cs IHcs]; constructor; [apply IH | exact IHcs].
  - apply HNot, IH.
Qed.

End Induction.

Lemma toSQL_and cs k :
  toSQL (AndExpr cs) k =
  let st := loop cs (mkLoop [] [] k) in
  mkCompiled ("(" +:+ Js.join " AND " (loop_parts st) +:+ ")")
             (loop_params st) (loop_idx st).
Proof. reflexivity. Qed.

Lemma toSQL_or cs k :
  toSQL (OrExpr cs) k =
  let st := loop cs (mkLoop [] [] k) in
  mkCompiled ("(" +:+ Js.join " OR " (loop_parts st) +:+ ")")
             (loop_params st) (loop_idx st).
Proof. reflexivity. Qed.

Lemma loop_cons c cs st :
  loop (c :: cs) st = loop cs (loop_push st (toSQL c (loop_idx st))).
Proof. reflexivity. Qed.

(** The loop from any state: what was accumulated stays in front, and the
    index does not depend on it. *)
Lemma loop_acc cs : ∀ parts ps k,
  loop_params (loop cs (mkLoop parts ps k))
    = ps ++ loop_params (loop cs (mkLoop [] [] k))
  ∧ loop_idx (loop cs (mkLoop parts ps k))
    = loop_idx (loop cs (mkLoop [] [] k)).
Proof.
  induction cs as [|c cs IH]; intros parts ps k.
  - cbn. by rewrite app_nil_r.
  - rewrite !loop_cons. unfold loop_push; cbn.
    destruct (IH (parts ++ [sql (toSQL c k)]) (ps ++ params (toSQL c k))
                 (nextIndex (toSQL c k))) as [-> ->].
    destruct (IH [sql (toSQL c k)] (params (toSQL c k))
                 (nextIndex (toSQL c k))) as [-> ->].
    by rewrite app_assoc.
Qed.

(** The loop visits the children from left to right: the first child is
    compiled at the start index, the others from where it stopped. *)
Lemma loop_thread c cs k :
  loop_params (loop (c :: cs) (mkLoop [] [] k))
    = params (toSQL c k)
        ++ loop_params (loop cs (mkLoop [] [] (nextIndex (toSQL c k))))
  ∧ loop_idx (loop (c :: cs) (mkLoop [] [] k))
    = loop_idx (loop cs (mkLoop [] [] (nextIndex (toSQL c k)))).
Proof. rewrite loop_cons. unfold loop_push; cbn. apply loop_acc. Qed.

(** The parameters of a tree are as many as its leaf values, whatever
    the start index. *)
Lemma toSQL_length cond :
  ∀ k, length (params (toSQL cond k)) = leafValues cond.
Proof.
  assert (Hloop : ∀ cs,
            Forall (λ c, ∀ k, length (params (toSQL c k)) = leafValues c) cs →
            ∀ k, length (loop_params (loop cs (mkLoop [] [] k)))
                 = foldr (λ c n, leafValues c + n)%nat 0%nat cs).
  { induction 1 as [|c cs Hc _ IH]; intros k; [done|].
    destruct (loop_thread c cs k) as [-> _].
    by rewrite length_app, Hc, IH. }
  induction cond as [ | | | | | | cs IH | cs IH | c IH] using condition_ind;
    intros k; cbn [leafValues]; try done.
  - cbn. by rewrite length_fmap.
  - cbn. by rewrite length_fmap.
  - rewrite toSQL_and. cbn [params]. by apply Hloop.
  - rewrite toSQL_or. cbn [params]. by apply Hloop.
  - cbn. apply IH.
Qed.











(** C7. [and] is associative in the parameters it renders: for all
    conditions [a], [b], [c] and every start index [k], [and(a, b, c)] and
    [and(and(a, b), c)] compile at [k] to the same parameters, in the same
    order, and to the same [nextIndex]; so does [or]. *)
Theorem and_or_assoc_params (a b c : SQLCondition) (k : Z) :
  params (toSQL (and [a; b; c]) k) = params (toSQL (and [and [a; b]; c]) k)
  ∧ nextIndex (toSQL (and [a; b; c]) k)
    = nextIndex (toSQL (and [and [a; b]; c]) k)
  ∧ params (toSQL (or [a; b; c]) k) = params (toSQL (or [or [a; b]; c]) k)
  ∧ nextIndex (toSQL (or [a; b; c]) k)
    = nextIndex (toSQL (or [or [a; b]; c]) k).
Proof.
  unfold and, or. rewrite !toSQL_and, !toSQL_or.
  cbn [params nextIndex loop fold_left loop_push loop_parts loop_params
       loop_idx app].
  rewrite !toSQL_and, !toSQL_or.
  cbn [params nextIndex loop fold_left loop_push loop_parts loop_params
       loop_idx app].
  done.
Qed.

(** C10. For every column and every start index [k], [inArray(column, [])]
    compiles without error: [toSQL(k)] returns the text
    ["<columnName>" IN ()], no parameter, and [nextIndex = k]. *)
Theorem inArray_empty (column : ColumnBuilder) (k : Z) :
  toSQL (inArray column []) k
  = mkCompiled (Js.quoted (columnName column) +:+ " IN ()") [] k.
Proof.
  unfold inArray. cbn. unfold Js.add. by rewrite decide_True.
Qed.

End ConditionFacts.

(** ** The runtime *)

Module RuntimeFacts.
Import Logic.

Lemma wp_ret {A} (a : A) Q w : Q (Ok a) w → wp (ret a) Q w.
Proof. done. Qed.

Lemma wp_throw {A} e (Q : Outcome A → World → Prop) w :
  Q (Throw e) w → wp (throw e) Q w.
Proof. done. Qed.

Lemma wp_bind {A B} (m : M A) (k : A → M B) Q w :
  wp m (λ o w', match o with
                | Ok a => wp (k a) Q w'
                | Throw e => Q (Throw e) w'
                | Stuck => Q Stuck w'
                end) w →
  wp (bind m k) Q w.
Proof. unfold wp, bind. by destruct (m w) as [[a|e|] w']. Qed.

Lemma wp_alloc o Q w :
  (∀ l, heap w !! l = None → Q (Ok l) (set_heap (<[l := o]> (heap w)) w)) →
  wp (alloc o) Q w.
Proof.
  intros H. apply H. apply (not_elem_of_dom (D := gset loc)), is_fresh.
Qed.

Lemma wp_read l o Q w :
  heap w !! l = Some o → Q (Ok o) w → wp (read l) Q w.
Proof. unfold wp, read. by intros ->. Qed.

Lemma wp_write l o Q w :
  Q (Ok ()) (set_heap (<[l := o]> (heap w)) w) → wp (write l o) Q w.
Proof. done. Qed.

End RuntimeFacts.

(** ** The select builder *)

Module SelectFacts.
Import Logic RuntimeFacts SelectQueryBuilder.

Lemma wp_readSelect l f Q w :
  heap w !! l = Some (ObjSelect f) → Q (Ok f) w → wp (readSelect l) Q w.
Proof.
  intros Hl HQ. apply wp_bind, (wp_read _ _ _ _ Hl). by apply wp_ret.
Qed.

Lemma wp_readJoins l xs Q w :
  heap w !! l = Some (ArrJoin xs) → Q (Ok xs) w → wp (readJoins l) Q w.
Proof.
  intros Hl HQ. apply wp_bind, (wp_read _ _ _ _ Hl). by apply wp_ret.
Qed.

Lemma wp_readOrders l xs Q w :
  heap w !! l = Some (ArrOrder xs) → Q (Ok xs) w → wp (readOrders l) Q w.
Proof.
  intros Hl HQ. apply wp_bind, (wp_read _ _ _ _ Hl). by apply wp_ret.
Qed.

Lemma wp_readColumns l xs Q w :
  heap w !! l = Some (ArrColumn xs) → Q (Ok xs) w → wp (readColumns l) Q w.
Proof.
  intros Hl HQ. apply wp_bind, (wp_read _ _ _ _ Hl). by apply wp_ret.
Qed.

Lemma wp_get {A} this (field : SelectFields → A) f Q w :
  heap w !! this = Some (ObjSelect f) →
  Q (Ok (field f)) w → wp (get this field) Q w.
Proof.
  intros Hl HQ. apply wp_bind, (wp_readSelect _ _ _ _ Hl). by apply wp_ret.
Qed.

Lemma wp_assign {A} b (setter : A → SelectFields → SelectFields) v f Q w :
  heap w !! b = Some (ObjSelect f) →
  Q (Ok ()) (set_heap (<[b := ObjSelect (setter v f)]> (heap w)) w) →
  wp (assign b setter v) Q w.
Proof.
  intros Hl HQ. apply wp_bind, (wp_readSelect _ _ _ _ Hl). by apply wp_write.
Qed.

Lemma wp_copy {A} b this (field : SelectFields → A) setter f fb Q w :
  heap w !! this = Some (ObjSelect f) →
  heap w !! b = Some (ObjSelect fb) →
  Q (Ok ()) (set_heap (<[b := ObjSelect (setter (field f) fb)]> (heap w)) w) →
  wp (copy b this field setter) Q w.
Proof.
  intros Hthis Hb HQ. apply wp_bind, (wp_get _ _ _ _ _ Hthis).
  by apply (wp_assign _ _ _ _ _ _ Hb).
Qed.

(** Symbolic execution of a chain method. *)
Ltac fresh_facts l H :=
  cbv delta [set_heap] in H; cbn [heap] in H;
  repeat (apply lookup_insert_None in H as [H ?]);
  repeat match goal with
         | Hx : ?h !! ?x = Some _, Hl : ?h !! l = None |- _ =>
             lazymatch goal with
             | _ : x ≠ l |- _ => fail
             | _ => assert (x ≠ l) by congruence
             end
         end.

Ltac world := cbv delta [set_heap]; cbn [heap tanaDb calls].

Ltac diseq := solve [ assumption | symmetry; assumption ].

Ltac heap_lookup :=
  world;
  repeat first [ rewrite lookup_insert_eq
               | rewrite lookup_insert_ne by diseq ];
  first [ reflexivity | eassumption ].

Ltac heap_sub :=
  world;
  repeat (apply insert_subseteq_r; [assumption|]);
  reflexivity.

Ltac fields :=
  cbv delta [set_from set_select set_where set_joins set_orderBy
             set_groupBy set_limit set_offset];
  cbn [_from _select _where _joins _orderBy _groupBy _limit _offset
       v_from v_select v_where v_joins v_orderBy v_groupBy v_limit
       v_offset].

Ltac represented :=
  eexists; split; [heap_lookup |]; fields;
  repeat split; first [ assumption | heap_lookup ].

Ltac overwrite := world; rewrite ?insert_insert_eq; fields.

Ltac step :=
  lazymatch goal with
  | |- wp (bind _ _) _ _ => apply wp_bind
  | |- wp (ret _) _ _ => apply wp_ret
  | |- wp (throw _) _ _ => apply wp_throw
  | |- wp (alloc _) _ _ =>
      let l := fresh "l" in let H := fresh "Hl" in
      apply wp_alloc; intros l H; fresh_facts l H
  | |- wp (copy _ _ _ _) _ _ =>
      eapply wp_copy; [heap_lookup | heap_lookup |]; overwrite
  | |- wp (assign _ _ _) _ _ => eapply wp_assign; [heap_lookup |]; overwrite
  | |- wp (get _ _) _ _ => eapply wp_get; [heap_lookup |]
  | |- wp (readJoins _) _ _ => eapply wp_readJoins; [heap_lookup |]
  | |- wp (readOrders _) _ _ => eapply wp_readOrders; [heap_lookup |]
  | |- wp (readColumns _) _ _ => eapply wp_readColumns; [heap_lookup |]
  | |- wp (readSelect _) _ _ => eapply wp_readSelect; [heap_lookup |]
  end.

Lemma wp_new Q w :
  (∀ b w', extends w w' → heap w !! b = None →
           represents (heap w') b emptyView → Q (Ok b) w') →
  wp new Q w.
Proof.
  intros HQ. unfold new. repeat step.
  apply HQ; [split; [heap_sub | done] | done | represented].
Qed.

(** A chain call returns a new builder, which denotes the view derived
    from the one of the receiver, in a world that extends the one of the
    call; or it throws, in such a world. *)
Lemma wp_chain this c v Q w :
  represents (heap w) this v →
  (∀ v' b w', derive v c = inr v' → extends w w' → heap w !! b = None →
              represents (heap w') b v' → Q (Ok b) w') →
  (∀ e w', derive v c = inl e → extends w w' → Q (Throw e) w') →
  wp (chain this c) Q w.
Proof.
  intros (f & Hthis & Hj & Ho & Hg & Hfrom & Hsel & Hwh & Hlim & Hoff)
         HQ HT.
  destruct c; cbn [chain];
    unfold select, from, where_, innerJoin, leftJoin, rightJoin, join,
           orderBy, groupBy, limit, offset, new;
    repeat step;
    try (cbn [derive] in HQ, HT;
         destruct (mapOrders orders) as [e|entries]; repeat step;
         [ apply (HT e); [done | split; [heap_sub | done]] |]);
    (eapply HQ; [reflexivity | split; [heap_sub | done] | done
                | represented]).
Qed.

Lemma wp_chain_ok this c v v' Q w :
  represents (heap w) this v →
  derive v c = inr v' →
  (∀ b w', extends w w' → represents (heap w') b v' → Q (Ok b) w') →
  wp (chain this c) Q w.
Proof.
  intros Hv Hd HQ. apply (wp_chain this c v Q w Hv).
  - intros v'' b w' Hd' Hext _ Hrep. apply HQ; [done|]. congruence.
  - intros e w' Hd'. congruence.
Qed.

Lemma toSQL_represented this v w :
  represents (heap w) this v →
  toSQL this w
  = (match compileView v with inr q => Ok q | inl e => Throw e end, w).
Proof.
  intros (f & Hthis & Hj & Ho & Hg & Hfrom & Hsel & Hwh & Hlim & Hoff).
  unfold toSQL, compileView, readSelect, readJoins, readOrders, readColumns,
         read, bind, ret, throw.
  rewrite Hthis, Hfrom. destruct (v_from v) as [t|]; [|done].
  by rewrite Hj, Hg, Ho, Hsel, Hwh, Hlim, Hoff.
Qed.

Lemma represents_weaken h h' l v :
  h ⊆ h' → represents h l v → represents h' l v.
Proof.
  intros Hsub (f & Hthis & Hj & Ho & Hg & Hrest).
  exists f. repeat split; try (eapply lookup_weaken; eassumption).
  all: tauto.
Qed.

Lemma extends_refl w : extends w w.
Proof. by split. Qed.

Lemma extends_trans w1 w2 w3 :
  extends w1 w2 → extends w2 w3 → extends w1 w3.
Proof.
  intros (H1 & H2 & H3) (H1' & H2' & H3'). split.
  - by etrans.
  - split; congruence.
Qed.

Lemma chain_runs this c v w :
  represents (heap w) this v →
  extends w (chain this c w).2
  ∧ match derive v c with
    | inr v' => ∃ b, (chain this c w).1 = Ok b ∧ heap w !! b = None
                     ∧ represents (heap (chain this c w).2) b v'
    | inl e => (chain this c w).1 = Throw e
    end.
Proof.
  intros Hv.
  apply (wp_chain this c v
           (λ o w', extends w w'
                    ∧ match derive v c with
                      | inr v' => ∃ b, o = Ok b ∧ heap w !! b = None
                                       ∧ represents (heap w') b v'
                      | inl e => o = Throw e
                      end) w Hv).
  - intros v' b w' -> Hext Hb Hrep. eauto.
  - intros e w' -> Hext. eauto.
Qed.

(** C3. For every select builder with a bound from-table and every chain
    call that returns a derived builder ([select], [from], [where],
    [innerJoin], [leftJoin], [rightJoin], [orderBy], [groupBy], [limit],
    [offset]), [toSQL()] on the receiver returns after the call the
    statement, text and parameters, that it returns before the call; the
    derived builder is another object. *)
Theorem chain_call_leaves_receiver (w w' : World) (this b : loc) (c : Chain)
  (v : View) (table : TableDefinition) :
  represents (heap w) this v →
  v_from v = Some table →
  chain this c w = (Ok b, w') →
  ∃ q, toSQL this w = (Ok q, w) ∧ toSQL this w' = (Ok q, w') ∧ b ≠ this.
Proof.
  intros Hv Hfrom Hrun.
  destruct (chain_runs this c v w Hv) as [Hext Hres].
  rewrite Hrun in Hext, Hres; cbn [fst snd] in Hext, Hres.
  assert (Hv' : represents (heap w') this v)
    by (eapply represents_weaken; [apply Hext | done]).
  rewrite (toSQL_represented this v w Hv), (toSQL_represented this v w' Hv').
  unfold compileView. rewrite Hfrom. eexists. split; [done|]. split; [done|].
  destruct (derive v c) as [e|v'']; [done|].
  destruct Hres as (b' & [= <-] & Hb & _).
  destruct Hv as (f & Hthis & _). congruence.
Qed.

Lemma chain_call_leaves_receiver_witness :
  let w := started.2 in
  let c := ChainWhere (eq posts_published (VBoolean true)) in
  let w' := (chain 12%positive c w).2 in
  ∃ q, toSQL 12%positive w = (Ok q, w) ∧ toSQL 12%positive w' = (Ok q, w')
       ∧ 16%positive ≠ 12%positive.
Proof.
  intros w c w'.
  apply (chain_call_leaves_receiver w w' 12%positive 16%positive c
           (mkView (Some posts) SelectStar None [] [] [] None None) posts).
  - exists (mkSelect (Some posts) SelectStar None 1%positive 2%positive
                     3%positive None None).
    repeat split; vm_compute; reflexivity.
  - vm_compute; reflexivity.
  - vm_compute; reflexivity.
Defined.
End SelectFacts.

(** ** The select scenario *)

Module ScenarioFacts.
Import Logic RuntimeFacts SelectFacts SelectQueryBuilder.

(** Written with [orderBy(posts.title, 'desc')], the chain passes the
    string ['desc'] as a second order: [orderBy] raises a [TypeError] on
    it and no statement is returned. *)
Lemma select_scenario_with_direction_string :
  (selectPosts [OrderColumn posts_title; OrderString "desc"]
     (emptyWorld None)).1
  = Throw (Js.TypeError
             "Cannot use 'in' operator to search for 'direction' in desc")
  ∧ (selectPosts [OrderColumn posts_title; OrderString "desc"]
       (emptyWorld None)).1
    ≠ Ok selectPostsStatement.
Proof.
  assert (H : (selectPosts [OrderColumn posts_title; OrderString "desc"]
                 (emptyWorld None)).1
              = Throw (Js.TypeError
                  "Cannot use 'in' operator to search for 'direction' in desc"))
    by (vm_compute; reflexivity).
  split; [exact H | rewrite H; discriminate].
Qed.

(** C2, amended. With the order given as [desc(posts.title)], the chain
    [db.select().from(posts).where(eq(posts.published, true))
     .orderBy(desc(posts.title)).limit(10).toSQL()] returns, in every
    world, the text [SELECT * FROM "posts" WHERE "published" = $1 ORDER BY
    "title" DESC LIMIT 10] and the parameters [[true]]. *)
Theorem select_scenario (w : World) :
  ∃ w', selectPosts [OrderObject (desc posts_title)] w
        = (Ok selectPostsStatement, w')
        ∧ extends w w'.
Proof.
  enough (H : wp (selectPosts [OrderObject (desc posts_title)])
                 (λ o w', o = Ok selectPostsStatement ∧ extends w w') w).
  { unfold wp in H.
    destruct (selectPosts [OrderObject (desc posts_title)] w) as [o w'].
    cbn in H. destruct H as [-> H]. eauto. }
  unfold selectPosts, db.select.
  apply wp_bind, wp_bind, wp_new. intros b w0 E0 _ R0.
  apply (wp_chain_ok b (ChainSelect None) _ _ _ _ R0 eq_refl).
  intros b0 w1 E1 R1.
  apply wp_bind, (wp_chain_ok b0 (ChainFrom posts) _ _ _ _ R1 eq_refl).
  intros b1 w2 E2 R2.
  apply wp_bind,
    (wp_chain_ok b1 (ChainWhere (eq posts_published (VBoolean true)))
       _ _ _ _ R2 eq_refl).
  intros b2 w3 E3 R3.
  apply wp_bind,
    (wp_chain_ok b2 (ChainOrderBy [OrderObject (desc posts_title)])
       _ _ _ _ R3 eq_refl).
  intros b3 w4 E4 R4.
  apply wp_bind, (wp_chain_ok b3 (ChainLimit 10) _ _ _ _ R4 eq_refl).
  intros b4 w5 E5 R5.
  unfold wp. rewrite (toSQL_represented b4 _ w5 R5). split.
  - vm_compute; reflexivity.
  - repeat (eapply extends_trans; [eassumption|]). apply extends_refl.
Qed.

End ScenarioFacts.

(** ** Structural errors *)

Module ErrorFacts.
Import Logic RuntimeFacts SelectFacts.

(** C5. The structural errors are raised by [toSQL()] itself, before the
    gateway is looked up: a select builder with no from-table throws
    [FROM clause is required], an insert builder with no row throws
    [No values to insert], an update builder whose [set] object has no key
    throws [No columns to update]; [execute()] then throws the same error
    and leaves the world, and so the record of the gateway calls, as it
    was. *)
Theorem structural_errors_before_gateway :
  (∀ w this v,
     represents (heap w) this v → v_from v = None →
     SelectQueryBuilder.toSQL this w
       = (Throw (Js.Error "FROM clause is required"), w)
     ∧ SelectQueryBuilder.execute this w
       = (Throw (Js.Error "FROM clause is required"), w))
  ∧ (∀ w this,
       InsertQueryBuilder._values this = [] →
       InsertQueryBuilder.toSQL this = inl (Js.Error "No values to insert")
       ∧ InsertQueryBuilder.execute this w
         = (Throw (Js.Error "No values to insert"), w))
  ∧ (∀ w this,
       Js.keys (UpdateQueryBuilder._set this) = [] →
       UpdateQueryBuilder.toSQL this = inl (Js.Error "No columns to update")
       ∧ UpdateQueryBuilder.execute this w
         = (Throw (Js.Error "No columns to update"), w)).
Proof.
  split; [|split].
  - intros w this v Hv Hfrom.
    assert (H : SelectQueryBuilder.toSQL this w
                = (Throw (Js.Error "FROM clause is required"), w)).
    { rewrite (toSQL_represented this v w Hv). unfold compileView.
      by rewrite Hfrom. }
    split; [done|]. unfold SelectQueryBuilder.execute, bind. by rewrite H.
  - intros w this Hvalues.
    assert (H : InsertQueryBuilder.toSQL this
                = inl (Js.Error "No values to insert")).
    { unfold InsertQueryBuilder.toSQL. by rewrite Hvalues. }
    split; [done|]. unfold InsertQueryBuilder.execute. by rewrite H.
  - intros w this Hkeys.
    assert (H : UpdateQueryBuilder.toSQL this
                = inl (Js.Error "No columns to update")).
    { unfold UpdateQueryBuilder.toSQL. by rewrite Hkeys. }
    split; [done|]. unfold UpdateQueryBuilder.execute. by rewrite H.
Qed.

Lemma structural_errors_before_gateway_witness :
  SelectQueryBuilder.execute 8%positive unbound.2
    = (Throw (Js.Error "FROM clause is required"), unbound.2)
  ∧ InsertQueryBuilder.execute (db.insert posts) unbound.2
    = (Throw (Js.Error "No values to insert"), unbound.2)
  ∧ UpdateQueryBuilder.execute (db.update posts) unbound.2
    = (Throw (Js.Error "No columns to update"), unbound.2).
Proof.
  destruct structural_errors_before_gateway as (Hselect & Hinsert & Hupdate).
  split; [|split].
  - apply (Hselect unbound.2 8%positive emptyView); [|reflexivity].
    exists (mkSelect None SelectStar None 1%positive 2%positive 3%positive
                     None None).
    repeat split; vm_compute; reflexivity.
  - apply (Hinsert unbound.2 (db.insert posts)). reflexivity.
  - apply (Hupdate unbound.2 (db.update posts)). reflexivity.
Defined.

End ErrorFacts.

(** ** The model layer *)

Module ModelFacts.
Import Logic RuntimeFacts SelectFacts Model.

Lemma bind_Ok {A B} (m : M A) (k : A → M B) w a w' :
  m w = (Ok a, w') → bind m k w = k a w'.
Proof. unfold bind. by intros ->. Qed.

Lemma readInstance_Ok l self w :
  heap w !! l = Some (ObjInstance self) → readInstance l w = (Ok self, w).
Proof. intros H. unfold readInstance, read, bind. by rewrite H. Qed.

Lemma findPrimaryKey_None cols :
  Forall (λ entry, isPrimaryKey entry.2 = false) cols →
  findPrimaryKey cols = None.
Proof.
  induction 1 as [|[key col] cols Hcol _ IH]; [done|].
  cbn in *. by rewrite Hcol.
Qed.

Lemma findPrimaryKey_Some cols key :
  findPrimaryKey cols = Some key →
  ∃ col, Js.get cols key = Js.Own col.
Proof.
  unfold Js.get. induction cols as [|[k c] cols IH]; [done|]. cbn.
  destruct (isPrimaryKey c).
  - intros [= ->]. exists c. by rewrite decide_True.
  - intros H. destruct (decide (k = key)); [by eexists | by apply IH].
Qed.

(** C8. On an instance whose table has no column with the primary-key
    flag, [update()], [destroy()] and [reload()] throw their
    no-primary-key error and leave the world as it was: no gateway call
    is recorded and the instance keeps its attributes and its persisted
    flag. *)
Theorem no_primary_key_fails_first (w : World) (this : loc)
  (self : InstanceFields) (attrs : Row) :
  heap w !! this = Some (ObjInstance self) →
  Forall (λ entry, isPrimaryKey entry.2 = false) (columns (_table self)) →
  update this attrs w
    = (Throw (Js.Error "Cannot update: no primary key defined"), w)
  ∧ destroy this w
    = (Throw (Js.Error "Cannot delete: no primary key defined"), w)
  ∧ reload this w
    = (Throw (Js.Error "Cannot reload: no primary key defined"), w).
Proof.
  intros Hthis Hcols. apply findPrimaryKey_None in Hcols.
  unfold update, destroy, reload.
  rewrite !(bind_Ok _ _ _ _ _ (readInstance_Ok _ _ _ Hthis)).
  by rewrite Hcols.
Qed.

Lemma no_primary_key_fails_first_witness :
  update 1%positive [("body", VString "y")] noteInstance.2
    = (Throw (Js.Error "Cannot update: no primary key defined"),
       noteInstance.2)
  ∧ destroy 1%positive noteInstance.2
    = (Throw (Js.Error "Cannot delete: no primary key defined"),
       noteInstance.2)
  ∧ reload 1%positive noteInstance.2
    = (Throw (Js.Error "Cannot reload: no primary key defined"),
       noteInstance.2).
Proof.
  apply (no_primary_key_fails_first noteInstance.2 1%positive
           (mkInstance [("body", VString "x")] notes false)).
  - vm_compute; reflexivity.
  - repeat constructor.
Defined.

Lemma wp_readInstance l self Q w :
  heap w !! l = Some (ObjInstance self) → Q (Ok self) w →
  wp (readInstance l) Q w.
Proof.
  intros Hl HQ. apply wp_bind, (wp_read _ _ _ _ Hl). by apply wp_ret.
Qed.

Lemma wp_getRuntime Q w : Q (Ok (tanaDb w)) w → wp getRuntime Q w.
Proof. done. Qed.

Lemma wp_gateway {A} c (answer : list GatewayCall → Js.Exn + A) Q w :
  Q (match answer (calls w) with inr a => Ok a | inl e => Throw e end)
    (mkWorld (heap w) (tanaDb w) (calls w ++ [c])) →
  wp (gateway c answer) Q w.
Proof. unfold wp, gateway. by destruct (answer (calls w)). Qed.

Lemma wp_toSQL this v Q w :
  represents (heap w) this v →
  Q (match compileView v with inr q => Ok q | inl e => Throw e end) w →
  wp (SelectQueryBuilder.toSQL this) Q w.
Proof. intros Hv HQ. unfold wp. by rewrite (toSQL_represented this v w Hv). Qed.

Lemma compile_selectByKey table column value :
  SelectQueryBuilder.compile table SelectStar (Some (eq column value))
                             [] [] [] None None
  = selectByKey table column value.
Proof. reflexivity. Qed.

(** [db.select().from(table).where(eq(column, value)).execute()], with a
    gateway: the statement is sent, in a world whose heap extends the one
    of the call, and what follows runs on the rows of the answer. *)
Lemma wp_select_where {A} table column value rt (k : list Row → M A) Q w :
  tanaDb w = Some rt →
  (∀ w', extends w w' →
     let q := selectByKey table column value in
     let w'' := mkWorld (heap w') (tanaDb w)
                        (calls w ++ [CallQuery (st_sql q) (st_params q)]) in
     match gw_query rt (calls w) (st_sql q) (st_params q) with
     | inr rows => wp (k rows) Q w''
     | inl e => Q (Throw e) w''
     end) →
  wp (let* b0 := db.select None in
      let* b1 := SelectQueryBuilder.from b0 table in
      let* b2 := SelectQueryBuilder.where_ b1 (eq column value) in
      let* results := SelectQueryBuilder.execute b2 in
      k results) Q w.
Proof.
  intros Hrt HQ. unfold db.select.
  apply wp_bind, wp_bind, wp_new. intros b w0 E0 _ R0.
  apply (wp_chain_ok b (ChainSelect None) emptyView emptyView _ _ R0 eq_refl).
  intros b0 w1 E1 R1.
  apply wp_bind,
    (wp_chain_ok b0 (ChainFrom table) emptyView
       (mkView (Some table) SelectStar None [] [] [] None None)
       _ _ R1 eq_refl).
  intros b1 w2 E2 R2.
  apply wp_bind,
    (wp_chain_ok b1 (ChainWhere (eq column value)) _
       (mkView (Some table) SelectStar (Some (eq column value)) [] [] []
               None None)
       _ _ R2 eq_refl).
  intros b2 w3 E3 R3.
  assert (E : extends w w3)
    by (repeat (eapply extends_trans; [eassumption|]); apply extends_refl).
  specialize (HQ w3 E). destruct E as (Hsub & Hdb & Hcalls).
  unfold SelectQueryBuilder.execute.
  apply wp_bind, wp_bind, (wp_toSQL b2 _ _ _ R3).
  cbn [compileView v_from v_select v_where v_joins v_orderBy v_groupBy
       v_limit v_offset].
  rewrite compile_selectByKey.
  apply wp_bind, wp_getRuntime. rewrite Hdb, Hrt.
  apply wp_gateway. rewrite Hdb, Hcalls.
  cbv zeta in HQ.
  by destruct (gw_query rt (calls w)
                 (st_sql (selectByKey table column value))
                 (st_params (selectByKey table column value))).
Qed.

(** C9. When [reload()] sends its select and the gateway answers no row,
    it throws [Record not found] and the instance is as it was before the
    call: the same attributes and the same persisted flag. The call is
    the one the gateway has recorded. *)
Theorem reload_not_found_is_atomic (w : World) (this : loc)
  (self : InstanceFields) (rt : Gateway) (key : string)
  (column : ColumnBuilder) :
  heap w !! this = Some (ObjInstance self) →
  tanaDb w = Some rt →
  findPrimaryKey (columns (_table self)) = Some key →
  key ≠ EmptyString →
  getColumn (_table self) key = Js.Own column →
  gw_query rt (calls w)
    (st_sql (selectByKey (_table self) column (prop (_attributes self) key)))
    (st_params
       (selectByKey (_table self) column (prop (_attributes self) key)))
  = inr [] →
  ∃ w', reload this w = (Throw (Js.Error "Record not found"), w')
        ∧ heap w' !! this = Some (ObjInstance self)
        ∧ calls w'
          = calls w ++
            [CallQuery
               (st_sql (selectByKey (_table self) column
                          (prop (_attributes self) key)))
               (st_params (selectByKey (_table self) column
                             (prop (_attributes self) key)))].
Proof.
  intros Hthis Hrt Hpk Hkey Hcol Hrows.
  enough (H : wp (reload this)
                 (λ o w', o = Throw (Js.Error "Record not found")
                          ∧ heap w' !! this = Some (ObjInstance self)
                          ∧ calls w'
                            = calls w ++
                              [CallQuery
                                 (st_sql (selectByKey (_table self) column
                                            (prop (_attributes self) key)))
                                 (st_params (selectByKey (_table self) column
                                            (prop (_attributes self) key)))])
                 w).
  { unfold wp in H. destruct (reload this w) as [o w']. cbn in H.
    destruct H as [-> H]. eauto. }
  unfold reload. apply wp_bind, (wp_readInstance _ _ _ _ Hthis).
  rewrite Hpk. unfold missing. rewrite bool_decide_false by done.
  unfold pkCondition. rewrite Hcol.
  apply wp_bind, wp_ret.
  apply (wp_select_where _ _ _ rt _ _ _ Hrt).
  intros w' (Hsub & _ & _). cbv zeta. rewrite Hrows. apply wp_throw.
  split; [done|]. split; [|done]. cbn [heap].
  by eapply lookup_weaken.
Qed.

Lemma reload_not_found_is_atomic_witness :
  ∃ w', reload 1%positive postInstance.2
        = (Throw (Js.Error "Record not found"), w')
        ∧ heap w' !! 1%positive
          = Some (ObjInstance
                    (mkInstance
                       [("id", VString "p1"); ("title", VString "Hello")]
                       posts true))
        ∧ calls w'
          = calls postInstance.2 ++
            [CallQuery (st_sql (selectByKey posts posts_id (VString "p1")))
                       (st_params
                          (selectByKey posts posts_id (VString "p1")))].
Proof.
  apply (reload_not_found_is_atomic postInstance.2 1%positive
           (mkInstance [("id", VString "p1"); ("title", VString "Hello")]
                       posts true)
           silentGateway "id" posts_id).
  - vm_compute; reflexivity.
  - reflexivity.
  - reflexivity.
  - discriminate.
  - reflexivity.
  - reflexivity.
Defined.

End ModelFacts.

(** ** The insert builder *)

Module InsertFacts.
Import InsertQueryBuilder InsertDefs.

Lemma pushProps_acc (value : string → SQLValue) (names : list string) :
  ∀ acc ps idx,
  fold_left
    (λ '(placeholders, ps, idx) name,
       (placeholders ++ [placeholder idx], ps ++ [PValue (value name)],
        idx + 1))
    names (acc, ps, idx)
  = (acc ++ imap (λ j _, placeholder (idx + Z.of_nat j)) names,
     ps ++ ((λ name, PValue (value name)) <$> names),
     idx + Z.of_nat (length names)).
Proof.
  induction names as [|name names IH]; intros acc ps idx.
  - cbn. by rewrite !app_nil_r, Z.add_0_r.
  - cbn [fold_left]. rewrite IH. cbn [imap fmap list_fmap length].
    rewrite <-!app_assoc. cbn [app]. f_equal; [f_equal|lia].
    f_equal. rewrite Z.add_0_r. f_equal.
    apply imap_ext. intros j ? _. cbn. f_equal. lia.
Qed.

Lemma pushProps_spec (value : string → SQLValue) (names : list string)
  ps idx :
  pushProps value names ps idx
  = (imap (λ j _, placeholder (idx + Z.of_nat j)) names,
     ps ++ ((λ name, PValue (value name)) <$> names),
     idx + Z.of_nat (length names)).
Proof. unfold pushProps. by rewrite pushProps_acc. Qed.

Lemma valueLists_acc (names : list string) (rows : list Row) :
  ∀ acc ps idx,
  fold_left
    (λ '(lists, ps, idx) row,
       let '(placeholders, ps', idx') := pushProps (prop row) names ps idx in
       (lists ++ ["(" +:+ Js.join ", " placeholders +:+ ")"], ps', idx'))
    rows (acc, ps, idx)
  = (acc ++ imap (λ r _,
                    "(" +:+ Js.join ", "
                          (imap (λ j _, placeholder
                                          (idx + Z.of_nat r
                                                 * Z.of_nat (length names)
                                           + Z.of_nat j)) names)
                        +:+ ")") rows,
     ps ++ (rows ≫= (λ row, (λ name, PValue (prop row name)) <$> names)),
     idx + Z.of_nat (length rows) * Z.of_nat (length names)).
Proof.
  induction rows as [|row rows IH]; intros acc ps idx.
  - cbn. by rewrite !app_nil_r, Z.add_0_r.
  - cbn [fold_left]. rewrite pushProps_spec, IH.
    cbn [imap mbind list_bind length]. rewrite <-!app_assoc. cbn [app].
    assert (Hgroup : ∀ a b, a = b →
              imap (λ j (_ : string), placeholder (a + Z.of_nat j)) names
              = imap (λ j (_ : string), placeholder (b + Z.of_nat j)) names)
      by (by intros a b ->).
    f_equal; [f_equal|lia].
    f_equal. f_equal.
    + do 3 f_equal. apply Hgroup. lia.
    + apply imap_ext. intros r ? _. unfold compose. do 3 f_equal.
      apply Hgroup. lia.
Qed.

Lemma chained_returning table cs :
  _returning (chained table cs) = returningCalled cs
  ∧ _table (chained table cs) = table.
Proof.
  unfold chained, returningCalled.
  enough (H : ∀ b, _returning (fold_left call cs b)
                   = (_returning b
                      || existsb (λ c, match c with
                                       | CallReturning => true
                                       | _ => false
                                       end) cs)%bool
                   ∧ _table (fold_left call cs b) = _table b)
    by apply (H (db.insert table)).
  induction cs as [|[data|] cs IH]; intros b; cbn [fold_left existsb].
  - by rewrite orb_false_r.
  - destruct (IH (call b (CallValues data))) as [-> ->]. done.
  - destruct (IH (call b CallReturning)) as [-> ->]. cbn.
    by rewrite orb_true_r.
Qed.

Lemma physical_dbColumnName table key name :
  physical table key name → dbColumnName table key = name.
Proof.
  unfold dbColumnName.
  intros [column Hcolumn Hname|column Hcolumn Hname|Hnone].
  - rewrite Hcolumn. by rewrite decide_False.
  - rewrite Hcolumn. by rewrite decide_True.
  - destruct (getColumn table key) as [column| |] eqn:Hcolumn; [|done..].
    by destruct (Hnone column).
Qed.

Lemma physical_names table keys names :
  Forall2 (physical table) keys names → dbColumnName table <$> keys = names.
Proof.
  induction 1 as [|key name keys names Hname _ IH]; [done|].
  cbn [fmap list_fmap]. by rewrite (physical_dbColumnName _ _ _ Hname), IH.
Qed.

Lemma physical_total table key : ∃ name, physical table key name.
Proof.
  destruct (getColumn table key) as [column| |] eqn:Hcolumn.
  - destruct (decide (columnName column = EmptyString)) as [Hname|Hname].
    + exists key. by eapply physical_unnamed.
    + exists (columnName column). by eapply physical_column.
  - exists key. apply physical_undeclared. congruence.
  - exists key. apply physical_undeclared. congruence.
Qed.

Lemma physical_readTime : physical articles "readTime" "read_time".
Proof.
  apply (physical_column articles "readTime" (integer "read_time"));
    [reflexivity | discriminate].
Qed.

(** C4. On [posts], [db.insert(posts).values({title: 'Hello'})
    .returning().toSQL()] returns the text [INSERT INTO "posts" ("title")
    VALUES ($1) RETURNING *] and the parameters [['Hello']]. For every
    chain of [values] and [returning] calls that leaves at least one row,
    the column list is made of the keys of the first row, each mapped to
    the physical name that the schema of the table gives it: the
    [columnName] of the column declared under the key, which need not be
    the key, as on [articles], where [readTime] is written [read_time];
    every key has such a name. [ RETURNING *] ends the text exactly when
    [returning()] is one of the calls. *)
Theorem insert_statement :
  toSQL (returning (values (db.insert posts)
                           (One [("title", VString "Hello")])))
  = inr (mkStatement
           ("INSERT INTO " +:+ Js.quoted "posts" +:+ " (" +:+ Js.quoted "title"
              +:+ ") VALUES ($1) RETURNING *")
           [PValue (VString "Hello")])
  ∧ toSQL (values (db.insert articles)
                  (One [("title", VString "Hello"); ("readTime", VNumber 5)]))
    = inr (mkStatement
             ("INSERT INTO " +:+ Js.quoted "articles" +:+ " ("
                +:+ Js.quoted "headline" +:+ ", " +:+ Js.quoted "read_time"
                +:+ ") VALUES ($1, $2)")
             [PValue (VString "Hello"); PValue (VNumber 5)])
  ∧ (∀ table cs first rest names,
       _values (chained table cs) = first :: rest →
       Forall2 (physical table) (Js.keys first) names →
       toSQL (chained table cs)
       = inr (mkStatement
                (if returningCalled cs
                 then insertText table names (first :: rest) +:+ " RETURNING *"
                 else insertText table names (first :: rest))
                (insertParams first (first :: rest))))
  ∧ (∀ table keys, ∃ names, Forall2 (physical table) keys names).
Proof.
  split; [vm_compute; reflexivity|].
  split; [vm_compute; reflexivity|].
  split.
  - intros table cs first rest names Hvalues Hnames.
    destruct (chained_returning table cs) as [Hret Htable].
    unfold toSQL, valueLists. rewrite Hvalues, Hret, Htable.
    rewrite valueLists_acc. cbn [app].
    rewrite (physical_names _ _ _ Hnames).
    unfold insertText, insertParams.
    assert (Hgroup : ∀ f : nat → string,
              imap (λ j (_ : string), f j) (Js.keys first)
              = imap (λ j (_ : string), f j) names)
      by (intros f; by rewrite !imap_seq_0, (Forall2_length _ _ _ Hnames)).
    rewrite <-(Forall2_length _ _ _ Hnames).
    assert (Hrows : imap (λ r (_ : Row),
                       "(" +:+ Js.join ", "
                                 (imap (λ j (_ : string),
                                          placeholder
                                            (1 + Z.of_nat r
                                                 * Z.of_nat
                                                     (length (Js.keys first))
                                             + Z.of_nat j))
                                       (Js.keys first)) +:+ ")")
                     (first :: rest)
                   = imap (λ r (_ : Row),
                       "(" +:+ Js.join ", "
                                 (imap (λ j (_ : string),
                                          placeholder
                                            (1 + Z.of_nat r
                                                 * Z.of_nat
                                                     (length (Js.keys first))
                                             + Z.of_nat j))
                                       names) +:+ ")")
                     (first :: rest)).
    { apply imap_ext. intros r row _. cbv beta. by rewrite Hgroup. }
    rewrite Hrows.
    by destruct (returningCalled cs).
  - intros table keys. induction keys as [|key keys [names IH]].
    + by exists [].
    + destruct (physical_total table key) as [name Hname].
      exists (name :: names). by constructor.
Qed.

Lemma insert_statement_witness :
  toSQL (chained articles
           [CallReturning;
            CallValues (Many [[("readTime", VNumber 5); ("note", VString "x")];
                              [("readTime", VNumber 7)]])])
  = inr (mkStatement
           ("INSERT INTO " +:+ Js.quoted "articles" +:+ " ("
              +:+ Js.quoted "read_time" +:+ ", " +:+ Js.quoted "note"
              +:+ ") VALUES ($1, $2), ($3, $4) RETURNING *")
           [PValue (VNumber 5); PValue (VString "x");
            PValue (VNumber 7); PValue VUndefined]).
Proof.
  destruct insert_statement as (_ & _ & H & _).
  rewrite (H articles
             [CallReturning;
              CallValues (Many [[("readTime", VNumber 5);
                                 ("note", VString "x")];
                                [("readTime", VNumber 7)]])]
             [("readTime", VNumber 5); ("note", VString "x")]
             [[("readTime", VNumber 7)]]
             ["read_time"; "note"] eq_refl).
  - vm_compute; reflexivity.
  - constructor; [|constructor; [|constructor]].
    + exact physical_readTime.
    + apply physical_undeclared. intros column. vm_compute. discriminate.
Defined.

End InsertFacts.

(** ** [findBy] *)

Module FindByFacts.
Import Logic RuntimeFacts FindByDefs Model.

Lemma pushConditions_matched table attrs : ∀ acc,
  QueryChain.pushConditions table attrs acc
  = acc ++ ((λ cv, eq cv.1 cv.2) <$> matched table attrs).
Proof.
  unfold QueryChain.pushConditions, matched.
  induction attrs as [|[key value] attrs IH]; intros acc.
  - cbn. by rewrite app_nil_r.
  - cbn [fold_left omap list_omap]. rewrite IH.
    destruct (getColumn table key) as [column| |]; cbn;
      by rewrite <-?app_assoc.
Qed.

Lemma counted_step (k : Z) (n : nat) :
  (0 ≤ k)%Z → Js.add (counted k n) 1 = counted k (S n).
Proof.
  intros Hk. unfold counted.
  destruct (decide (k + Z.of_nat n < Js.exact)%Z) as [Hlt|Hge].
  - rewrite !Z.min_l by lia. rewrite JsFacts.add_exact by lia. lia.
  - rewrite !Z.min_r by lia. apply JsFacts.add_1_stalls.
Qed.

(** The loop of [and] over equalities: one predicate and one parameter
    per equality, numbered by counting up from the start index. *)
Lemma loop_eqs (cols : list (ColumnBuilder * SQLValue)) (k : Z) :
  (0 ≤ k)%Z →
  ∀ parts ps n,
  Condition.loop ((λ cv, eq cv.1 cv.2) <$> cols)
                 (mkLoop parts ps (counted k n))
  = mkLoop
      (parts ++ imap (λ i cv, Js.quoted (columnName cv.1) +:+ " = "
                                +:+ placeholder (counted k (n + i))) cols)
      (ps ++ ((λ cv, PValue cv.2) <$> cols))
      (counted k (n + length cols)).
Proof.
  intros Hk.
  induction cols as [|[column value] cols IH]; intros parts ps n.
  - cbn. by rewrite !app_nil_r, Nat.add_0_r.
  - cbn [fmap list_fmap]. rewrite ConditionFacts.loop_cons.
    unfold loop_push. cbn [toSQL eq loop_idx loop_parts loop_params sql
                           params nextIndex fst snd].
    rewrite counted_step by done.
    rewrite IH. cbn [imap length fmap list_fmap fst snd].
    rewrite <-!app_assoc. cbn [app]. rewrite Nat.add_0_r.
    f_equal; [|f_equal; lia]. do 2 f_equal.
    apply imap_ext. intros i ? _. unfold compose. do 4 f_equal. lia.
Qed.

Lemma toSQL_matched table attrs :
  QueryChain.toSQL (QueryChain.limit (Model.where_ table attrs) 1)
  = findByStatement table attrs.
Proof.
  unfold Model.where_, QueryChain.where_, QueryChain.new, QueryChain.limit,
         QueryChain.toSQL, findByStatement, whereClause, predicates.
  cbn [QueryChain._table QueryChain._conditions QueryChain._orderByList
       QueryChain._limitValue QueryChain._offsetValue].
  rewrite pushConditions_matched. cbn [app length bool_decide].
  destruct (matched table attrs) as [|[c1 v1] [|[c2 v2] cols]]; [done|done|].
  set (all := (c1, v1) :: (c2, v2) :: cols).
  assert (Hlen : (0 < length ((λ cv, eq cv.1 cv.2) <$> all))%nat)
    by (cbn; lia).
  rewrite (bool_decide_true _ Hlen).
  change (QueryChain.combined ((λ cv, eq cv.1 cv.2) <$> all))
    with (AndExpr ((λ cv, eq cv.1 cv.2) <$> all)).
  rewrite ConditionFacts.toSQL_and. cbv zeta.
  change (mkLoop [] [] 1) with (mkLoop [] [] (counted 1 0)).
  rewrite loop_eqs by done.
  cbn [loop_parts loop_params sql params app].
  done.
Qed.

Lemma matched_length table attrs :
  length (matched table attrs)
  = length (filter (λ kv, Js.has (columns table) kv.1) attrs).
Proof.
  unfold matched, Js.has, getColumn.
  induction attrs as [|[key value] attrs IH]; [done|].
  rewrite filter_cons. cbn [omap list_omap fst].
  destruct (Js.get (columns table) key) as [column| |];
    case_decide; cbn [length]; by rewrite ?IH.
Qed.

(** The object [{bogus: 1}] has one key, under which the columns of
    [posts] hold nothing: [findBy] builds no condition for it, and the
    statement has no WHERE clause and no parameter. *)
Lemma findBy_skips_unknown_key :
  QueryChain._conditions (Model.where_ posts [("bogus", VNumber 1)]) = []
  ∧ QueryChain.toSQL
      (QueryChain.limit (Model.where_ posts [("bogus", VNumber 1)]) 1)
    = mkStatement ("SELECT * FROM " +:+ Js.quoted "posts" +:+ " LIMIT 1") []
  ∧ length (QueryChain._conditions
              (Model.where_ posts [("bogus", VNumber 1)]))
    ≠ length (Js.keys [("bogus", VNumber 1)]).
Proof. split; [|split]; vm_compute; [reflexivity | reflexivity | lia]. Qed.

(** C6, amended. [findBy(attrs)], and the chain of [where(attrs)], build
    one equality condition per key of [attrs] for which
    [table.columns[key]] is defined, in the order of [attrs], and none for
    the other keys. The statement sent has one predicate ["column" = $n]
    and one parameter per such key. With a gateway, [findBy] sends this
    statement and returns null when the answer has no row, an instance of
    the first row otherwise; a rejection of the gateway is thrown. *)
Theorem findBy_one_equality_per_column (table : TableDefinition)
  (attrs : Row) (w : World) (rt : Gateway) :
  tanaDb w = Some rt →
  let q := findByStatement table attrs in
  let sent := mkWorld (heap w) (tanaDb w)
                      (calls w ++ [CallQuery (st_sql q) (st_params q)]) in
  QueryChain._conditions (Model.where_ table attrs)
    = (λ cv, eq cv.1 cv.2) <$> matched table attrs
  ∧ QueryChain.toSQL (QueryChain.limit (Model.where_ table attrs) 1) = q
  ∧ length (predicates (matched table attrs))
    = length (filter (λ kv, Js.has (columns table) kv.1) attrs)
  ∧ length (st_params q)
    = length (filter (λ kv, Js.has (columns table) kv.1) attrs)
  ∧ match gw_query rt (calls w) (st_sql q) (st_params q) with
    | inl e => findBy table attrs w = (Throw e, sent)
    | inr [] => findBy table attrs w = (Ok None, sent)
    | inr (row :: _) =>
        ∃ i, heap w !! i = None
             ∧ findBy table attrs w
               = (Ok (Some i),
                  mkWorld
                    (<[i := ObjInstance (mkInstance row table true)]> (heap w))
                    (tanaDb w) (calls sent))
    end.
Proof.
  intros Hrt q sent.
  split; [|split; [|split; [|split]]].
  - unfold Model.where_, QueryChain.where_, QueryChain.new.
    cbn [QueryChain._conditions QueryChain._table].
    by rewrite pushConditions_matched.
  - apply toSQL_matched.
  - unfold predicates. by rewrite length_imap, matched_length.
  - subst q. unfold findByStatement. cbn [st_params].
    by rewrite length_fmap, matched_length.
  - unfold findBy, QueryChain.first, QueryChain.all.
    pose proof (toSQL_matched table attrs) as Hq.
    unfold Model.where_ in Hq. rewrite Hq. fold q.
    unfold bind, getRuntime, runtime_query, gateway, ret. rewrite Hrt.
    destruct (gw_query rt (calls w) (st_sql q) (st_params q))
      as [e|[|row rows]]; [done|done|].
    cbn [head]. unfold createInstance, alloc, set_heap. cbn [heap tanaDb calls].
    exists (fresh (dom (heap w))). split; [|by rewrite Hrt].
    apply (not_elem_of_dom (D := gset loc)), is_fresh.
Qed.

Lemma findBy_one_equality_per_column_witness :
  ∃ i, findBy posts [("title", VString "Hello"); ("bogus", VNumber 1)]
              (emptyWorld
                 (Some (twoRows [("id", VString "p1")] [("id", VString "p2")])))
       = (Ok (Some i),
          mkWorld
            (<[i := ObjInstance (mkInstance [("id", VString "p1")] posts true)]> ∅)
            (Some (twoRows [("id", VString "p1")] [("id", VString "p2")]))
            [CallQuery
               ("SELECT * FROM " +:+ Js.quoted "posts" +:+ " WHERE "
                  +:+ Js.quoted "title" +:+ " = $1 LIMIT 1")
               [PValue (VString "Hello")]]).
Proof.
  destruct (findBy_one_equality_per_column posts
              [("title", VString "Hello"); ("bogus", VNumber 1)]
              (emptyWorld
                 (Some (twoRows [("id", VString "p1")] [("id", VString "p2")])))
              (twoRows [("id", VString "p1")] [("id", VString "p2")])
              eq_refl)
    as (_ & _ & _ & _ & i & _ & H).
  exists i. exact H.
Defined.

End FindByFacts.

(** ** Parameters and start index *)

Module ConditionMore.
Import ConditionFacts.

Lemma loop_params_shift cs :
  Forall (λ c, ∀ k k', params (toSQL c k) = params (toSQL c k')) cs →
  ∀ k k', loop_params (loop cs (mkLoop [] [] k))
          = loop_params (loop cs (mkLoop [] [] k')).
Proof.
  induction 1 as [|c cs Hc _ IH]; intros k k'; [done|].
  destruct (loop_thread c cs k) as [-> _].
  destruct (loop_thread c cs k') as [-> _].
  by rewrite (Hc k k'), (IH (nextIndex (toSQL c k)) (nextIndex (toSQL c k'))).
Qed.

(** X1. The parameters of a condition do not depend on the index it is
    compiled from, also where the indexes are past [2 ** 53] and no
    longer count: only the placeholders in the text and [nextIndex]
    depend on it. *)
Theorem params_index_independent (c : SQLCondition) (k k' : Z) :
  params (toSQL c k) = params (toSQL c k').
Proof.
  revert k k'.
  induction c as [ | | | | | | cs IH | cs IH | c IH] using condition_ind;
    intros k k'; try done.
  - rewrite !toSQL_and. cbn [params]. by apply loop_params_shift.
  - rewrite !toSQL_or. cbn [params]. by apply loop_params_shift.
  - cbn. apply IH.
Qed.

End ConditionMore.

(** ** The parameters of a select statement *)

Module StatementFacts.
Import Logic ConditionFacts.

(** The loop over the joins of a select threads parameters and index as
    the loop of [and] does over the ON conditions. *)
Lemma joins_loop joins : ∀ st st',
  loop_params st = loop_params st' → loop_idx st = loop_idx st' →
  loop_params (fold_left SelectQueryBuilder.joinStep joins st)
    = loop_params (loop (join_on <$> joins) st')
  ∧ loop_idx (fold_left SelectQueryBuilder.joinStep joins st)
    = loop_idx (loop (join_on <$> joins) st').
Proof.
  induction joins as [|j joins IH]; intros st st' Hp Hi; [done|].
  cbn [fold_left fmap list_fmap]. rewrite loop_cons.
  apply IH; unfold SelectQueryBuilder.joinStep, loop_push; cbn;
    by rewrite ?Hp, ?Hi.
Qed.

(** X2. The parameters of a select statement are those of the conjunction of
    the ON conditions of its joins, in the order of the joins, and of its
    WHERE condition, compiled from index 1: the WHERE clause is numbered
    from where the last join stopped. Selection, grouping, ordering, limit
    and offset add no parameter. *)
Theorem select_params (from : TableDefinition) (selection : Selection)
  (condition : option SQLCondition) (joins : list JoinClause)
  (orders : list OrderEntry) (groups : list ColumnBuilder)
  (limit offset : option Z) :
  st_params (SelectQueryBuilder.compile from selection condition joins
               orders groups limit offset)
  = params (toSQL (and ((join_on <$> joins) ++ option_list condition)) 1)
  ∧ length (st_params
              (SelectQueryBuilder.compile from selection condition joins
                 orders groups limit offset))
    = leafValues (and ((join_on <$> joins) ++ option_list condition)).
Proof.
  assert (H : st_params
                (SelectQueryBuilder.compile from selection condition joins
                   orders groups limit offset)
              = params (toSQL (and ((join_on <$> joins)
                                      ++ option_list condition)) 1)).
  { unfold SelectQueryBuilder.compile, and. rewrite toSQL_and.
    cbn [st_params params].
    unfold loop. rewrite fold_left_app. fold (loop (join_on <$> joins)).
    match goal with
    | |- context [fold_left SelectQueryBuilder.joinStep joins ?st] =>
        destruct (joins_loop joins st (mkLoop [] [] 1) eq_refl eq_refl)
          as [Hp Hi]
    end.
    destruct condition as [cond|]; cbn [option_list fold_left].
    - unfold loop_push. cbn [loop_params]. by rewrite Hp, Hi.
    - done. }
  split; [exact H|]. rewrite H.
  apply toSQL_length.
Qed.

End StatementFacts.

(** ** The update builder *)

Module UpdateFacts.
Import UpdateQueryBuilder UpdateDefs InsertDefs.

Lemma setClause_acc (table : TableDefinition) (data : Row)
  (names : list string) : ∀ acc ps idx,
  fold_left
    (λ '(assignments, ps, idx) name,
       (assignments ++
          [Js.quoted (dbColumnName table name) +:+ " = " +:+ placeholder idx],
        ps ++ [PValue (prop data name)], idx + 1))
    names (acc, ps, idx)
  = (acc ++ imap (λ i name, Js.quoted (dbColumnName table name) +:+ " = "
                              +:+ placeholder (idx + Z.of_nat i)) names,
     ps ++ ((λ name, PValue (prop data name)) <$> names),
     idx + Z.of_nat (length names)).
Proof.
  induction names as [|name names IH]; intros acc ps idx.
  - cbn. by rewrite !app_nil_r, Z.add_0_r.
  - cbn [fold_left]. rewrite IH. cbn [imap fmap list_fmap length].
    rewrite <-!app_assoc. cbn [app]. rewrite Z.add_0_r.
    f_equal; [f_equal|lia]. do 2 f_equal.
    apply imap_ext. intros i ? _. unfold compose. do 3 f_equal. lia.
Qed.

(** X3. An update whose [set] object has a key compiles to one assignment
    per key, in the order of the keys, each to the physical name that the
    schema gives its key and numbered from 1; the WHERE condition is
    numbered from the index after the last assignment and its parameters
    follow the assigned values; [ RETURNING *] ends the text when
    [returning()] was called. With no key, [toSQL] throws
    [No columns to update]. *)
Theorem update_statement (this : t) (names : list string) :
  Forall2 (physical (_table this)) (Js.keys (_set this)) names →
  toSQL this
  = match Js.keys (_set this) with
    | [] => inl (Js.Error "No columns to update")
    | _ :: _ => inr (updateStatement this names)
    end.
Proof.
  intros Hnames.
  unfold toSQL, updateStatement, setClause.
  rewrite <-(InsertFacts.physical_names _ _ _ Hnames), imap_fmap.
  destruct (Js.keys (_set this)) as [|name keys] eqn:Hkeys; [done|].
  rewrite bool_decide_false by done.
  rewrite setClause_acc. cbn [app].
  by destruct (_where this), (_returning this).
Qed.

Lemma update_statement_witness :
  toSQL (where_ (set (db.update articles) [("readTime", VNumber 9)])
                (eq (integer "read_time") (VNumber 5)))
  = inr (mkStatement
           ("UPDATE " +:+ Js.quoted "articles" +:+ " SET "
              +:+ Js.quoted "read_time" +:+ " = $1 WHERE "
              +:+ Js.quoted "read_time" +:+ " = $2")
           [PValue (VNumber 9); PValue (VNumber 5)]).
Proof.
  rewrite (update_statement
             (where_ (set (db.update articles) [("readTime", VNumber 9)])
                     (eq (integer "read_time") (VNumber 5)))
             ["read_time"]).
  - vm_compute; reflexivity.
  - constructor; [exact InsertFacts.physical_readTime | constructor].
Defined.

End UpdateFacts.

(** ** The [execute] of the write builders *)

Module DispatchFacts.
Import Dispatch.

Lemma writeExecute_insert this :
  InsertQueryBuilder.execute this
  = writeExecute (InsertQueryBuilder.toSQL this)
                 (InsertQueryBuilder._returning this).
Proof. reflexivity. Qed.

Lemma writeExecute_update this :
  UpdateQueryBuilder.execute this
  = writeExecute (UpdateQueryBuilder.toSQL this)
                 (UpdateQueryBuilder._returning this).
Proof. reflexivity. Qed.

Lemma writeExecute_delete this :
  DeleteQueryBuilder.execute this
  = writeExecute (inr (DeleteQueryBuilder.toSQL this))
                 (DeleteQueryBuilder._returning this).
Proof. reflexivity. Qed.

Lemma writeExecute_dispatches compiled returning :
  dispatches (writeExecute compiled returning) compiled returning.
Proof.
  intros w.
  unfold writeExecute, bind, getRuntime, throw, ret, runtime_execute,
         runtime_executeReturning, gateway, oneCall, writeCall.
  destruct compiled as [e|q]; [done|].
  destruct (tanaDb w) as [rt|] eqn:Hrt; [|done].
  destruct returning.
  - by destruct (gw_executeReturning rt (calls w) (st_sql q) (st_params q)).
  - by destruct (gw_execute rt (calls w) (st_sql q) (st_params q)).
Qed.

(** X4. The [execute] of the insert, update and delete builders sends at most
    one statement: none when [toSQL] throws or when no gateway is bound,
    and otherwise one [executeReturning] call with [returning()], whose
    rows are returned, or one [execute] call without, after which no row
    is returned. The heap is left as it was. *)
Theorem write_builders_dispatch :
  (∀ this, dispatches (InsertQueryBuilder.execute this)
                      (InsertQueryBuilder.toSQL this)
                      (InsertQueryBuilder._returning this))
  ∧ (∀ this, dispatches (UpdateQueryBuilder.execute this)
                        (UpdateQueryBuilder.toSQL this)
                        (UpdateQueryBuilder._returning this))
  ∧ (∀ this, dispatches (DeleteQueryBuilder.execute this)
                        (inr (DeleteQueryBuilder.toSQL this))
                        (DeleteQueryBuilder._returning this)).
Proof.
  split; [|split]; intros this.
  - rewrite writeExecute_insert. apply writeExecute_dispatches.
  - rewrite writeExecute_update. apply writeExecute_dispatches.
  - rewrite writeExecute_delete. apply writeExecute_dispatches.
Qed.

End DispatchFacts.

(** ** Column modifiers *)

Module ColumnFacts.
Import Columns.

(** X5. Whatever modifiers are chained on a column, it keeps its type and its
    name, and a flag that is set stays set: the column is a primary key
    exactly when it was one or [primaryKey()] is in the chain, NOT NULL
    exactly when it was or [notNull()] or [primaryKey()] is in the chain,
    and has a default exactly when it had one or [default()],
    [defaultNow()] or [defaultRandom()] is in the chain. *)
Theorem modifiers_keep_identity_and_flags (c : ColumnBuilder)
  (ms : list Modifier) :
  columnType (modified c ms) = columnType c
  ∧ columnName (modified c ms) = columnName c
  ∧ _isPrimaryKeyFlag (modified c ms)
    = (_isPrimaryKeyFlag c || existsb setsPrimaryKey ms)%bool
  ∧ _notNullFlag (modified c ms)
    = (_notNullFlag c || existsb setsNotNull ms)%bool
  ∧ _hasDefaultFlag (modified c ms)
    = (_hasDefaultFlag c || existsb setsDefault ms)%bool.
Proof.
  unfold modified. revert c.
  induction ms as [|m ms IH]; intros c; cbn [fold_left existsb].
  - by rewrite !orb_false_r.
  - destruct (IH (modify c m)) as (-> & -> & -> & -> & ->).
    destruct m; cbn; rewrite ?orb_true_r, ?orb_false_r, ?orb_assoc; done.
Qed.

End ColumnFacts.

(** ** The keys an insert reads *)

Module InsertMoreFacts.
Import InsertQueryBuilder InsertMore InsertFacts.

Lemma prop_project names row name :
  name ∈ names → prop (project names row) name = prop row name.
Proof.
  unfold prop at 1, Js.get, project. intros Hin.
  assert (H : Js.assoc_get ((λ n, (n, prop row n)) <$> names) name
              = Some (prop row name)).
  { induction names as [|n names IH]; [by apply elem_of_nil in Hin|].
    cbn. destruct (decide (n = name)) as [->|Hne]; [done|].
    apply IH. apply elem_of_cons in Hin as [->|]; done. }
  by rewrite H.
Qed.

(** X6. The statement of an insert reads each row only under the keys of the
    first row: it is the statement of the rows cut down to these keys. A
    key that only a later row has gives no column and no parameter, and a
    row without one of the keys gives [undefined] for it. The statement
    has one parameter per row and key of the first row. *)
Theorem insert_reads_first_row_keys (table : TableDefinition)
  (first : Row) (rest : list Row) (returning : bool) :
  toSQL (mk table (first :: rest) returning)
  = toSQL (mk table (first :: (project (Js.keys first) <$> rest)) returning)
  ∧ ∃ q, toSQL (mk table (first :: rest) returning) = inr q
         ∧ length (st_params q)
           = (length (first :: rest) * length (Js.keys first))%nat.
Proof.
  unfold toSQL, valueLists. cbn [_values _table _returning].
  rewrite !valueLists_acc. cbn [app]. split.
  - assert (Hps : (project (Js.keys first) <$> rest)
                    ≫= (λ row, (λ name, PValue (prop row name))
                                 <$> Js.keys first)
                  = rest ≫= (λ row, (λ name, PValue (prop row name))
                                      <$> Js.keys first)).
    { induction rest as [|row rest IH]; [done|].
      cbn [fmap list_fmap mbind list_bind]. rewrite IH. f_equal.
      apply list_fmap_ext. intros i name Hi.
      rewrite prop_project; [done|]. by eapply list_elem_of_lookup_2. }
    assert (Hlists : ∀ F : nat → Row → string,
              (∀ r x y, F r x = F r y) →
              imap F (first :: (project (Js.keys first) <$> rest))
              = imap F (first :: rest)).
    { intros F HF. cbn [imap]. f_equal. rewrite imap_fmap.
      apply imap_ext. intros i x _. apply HF. }
    rewrite Hlists by done. cbn [mbind list_bind]. by rewrite Hps.
  - eexists. split; [reflexivity|]. cbn [st_params].
    induction (first :: rest) as [|row rows IH]; [done|].
    cbn [mbind list_bind length]. rewrite length_app, length_fmap, IH. lia.
Qed.

End InsertMoreFacts.

(** ** Chains of select calls *)

Module SequenceFacts.
Import Logic RuntimeFacts SelectFacts Sequences.

Lemma wp_runChain cs : ∀ this v (Q : Outcome loc → World → Prop) w,
  represents (heap w) this v →
  (∀ v' b w', deriveAll v cs = inr v' → extends w w' →
              represents (heap w') b v' → Q (Ok b) w') →
  (∀ e w', deriveAll v cs = inl e → extends w w' → Q (Throw e) w') →
  wp (runChain this cs) Q w.
Proof.
  induction cs as [|c cs IH]; intros this v Q w Hv HQ HT; cbn [runChain].
  - apply wp_ret, (HQ v); [done | apply extends_refl | done].
  - apply wp_bind, (wp_chain this c v _ w Hv).
    + intros v' b w' Hd Hext _ Hv'. apply (IH b v' Q w' Hv').
      * intros v'' b' w'' Hd' Hext' Hv''.
        apply (HQ v''); [|by eapply extends_trans|done].
        cbn [deriveAll]. by rewrite Hd.
      * intros e w'' Hd' Hext'. apply HT; [|by eapply extends_trans].
        cbn [deriveAll]. by rewrite Hd.
    + intros e w' Hd Hext. apply HT; [|done]. cbn [deriveAll]. by rewrite Hd.
Qed.

Lemma wp_compiled (columns : option (list (string * SelectEntry)))
  (cs : list Chain) (w : World) :
  wp (compiled columns cs)
     (λ o w', extends w w'
              ∧ o = match deriveAll (selected columns) cs with
                    | inl e => Throw e
                    | inr v =>
                        match compileView v with
                        | inr q => Ok q
                        | inl e => Throw e
                        end
                    end) w.
Proof.
  unfold compiled, db.select.
  apply wp_bind, wp_bind, wp_new. intros b w0 E0 _ R0.
  apply (wp_chain_ok b (ChainSelect columns) emptyView (selected columns)
           _ _ R0 eq_refl).
  intros b0 w1 E1 R1.
  apply wp_bind, (wp_runChain cs b0 (selected columns) _ w1 R1).
  - intros v' b' w2 Hd E2 R2. unfold wp.
    rewrite (toSQL_represented b' v' w2 R2), Hd. split; [|done].
    repeat (eapply extends_trans; [eassumption|]). apply extends_refl.
  - intros e w2 Hd E2. rewrite Hd. split; [|done].
    repeat (eapply extends_trans; [eassumption|]). apply extends_refl.
Qed.

(** X7. Builders are values. Whatever chain calls follow [db.select(columns)],
    in whatever world, [toSQL()] returns the statement of the view that
    the calls make, one after the other, of the view of [db.select]; the
    chain throws where the first [orderBy] given a string throws. The
    objects that were in the heap before the chain are unchanged, and no
    call is made to the gateway. *)
Theorem select_chain_compiles
  (columns : option (list (string * SelectEntry))) (cs : list Chain)
  (w : World) :
  extends w (compiled columns cs w).2
  ∧ (compiled columns cs w).1
    = match deriveAll (selected columns) cs with
      | inl e => Throw e
      | inr v =>
          match compileView v with
          | inr q => Ok q
          | inl e => Throw e
          end
      end.
Proof. apply wp_compiled. Qed.

Lemma deriveAll_app v cs cs' :
  deriveAll v (cs ++ cs')
  = match deriveAll v cs with
    | inl e => inl e
    | inr v' => deriveAll v' cs'
    end.
Proof.
  revert v. induction cs as [|c cs IH]; intros v; cbn [deriveAll app]; [done|].
  destruct (derive v c); [done | apply IH].
Qed.

(** X8. A chain call that sets again the field set by the call before it
    makes that call void: [.where(a).where(b)] compiles as [.where(b)]
    does, the first condition is dropped and not conjoined; so it is for
    [from], [select], [groupBy], [orderBy], [limit] and [offset]. *)
Theorem select_last_call_wins
  (columns : option (list (string * SelectEntry))) (cs : list Chain)
  (c c' : Chain) (w : World) :
  overrides c c' = true →
  (compiled columns (cs ++ [c; c']) w).1 = (compiled columns (cs ++ [c']) w).1.
Proof.
  intros Hov.
  destruct (wp_compiled columns (cs ++ [c; c']) w) as [_ ->].
  destruct (wp_compiled columns (cs ++ [c']) w) as [_ ->].
  rewrite !deriveAll_app.
  destruct (deriveAll (selected columns) cs) as [e|v]; [done|].
  cbn [deriveAll].
  destruct c, c'; try discriminate Hov; cbn [derive]; try done.
  cbn [overrides] in Hov.
  destruct (SelectQueryBuilder.mapOrders orders); [discriminate|].
  cbn. by destruct (SelectQueryBuilder.mapOrders orders0).
Qed.

Lemma select_last_call_wins_witness :
  (compiled None [ChainFrom posts;
                  ChainWhere (eq posts_title (VString "a"));
                  ChainWhere (eq posts_published (VBoolean true))]
            (emptyWorld None)).1
  = (compiled None [ChainFrom posts;
                    ChainWhere (eq posts_published (VBoolean true))]
              (emptyWorld None)).1.
Proof.
  apply (select_last_call_wins None [ChainFrom posts]
           (ChainWhere (eq posts_title (VString "a")))
           (ChainWhere (eq posts_published (VBoolean true)))
           (emptyWorld None)).
  reflexivity.
Defined.

End SequenceFacts.

(** ** Chains of [QueryChain] calls *)

Module QueryChainFacts.
Import QueryChain QueryChainCalls FindByDefs FindByFacts.

Lemma chained_from (cs : list Call) : ∀ this,
  _table (fold_left call cs this) = _table this
  ∧ _conditions (fold_left call cs this)
    = _conditions this
      ++ (cs ≫= λ c, match c with
                     | Where attrs =>
                         (λ cv, eq cv.1 cv.2) <$> matched (_table this) attrs
                     | _ => []
                     end)
  ∧ _orderByList (fold_left call cs this)
    = _orderByList this
      ++ omap (λ c, match c with
                    | OrderBy column direction =>
                        Some (column,
                              match direction with Some d => d | None => Asc end)
                    | _ => None
                    end) cs
  ∧ _limitValue (fold_left call cs this)
    = match last (omap (λ c, match c with Limit n => Some n | _ => None end)
                       cs) with
      | Some n => Some n
      | None => _limitValue this
      end
  ∧ _offsetValue (fold_left call cs this)
    = match last (omap (λ c, match c with Offset n => Some n | _ => None end)
                       cs) with
      | Some n => Some n
      | None => _offsetValue this
      end.
Proof.
  induction cs as [|c cs IH]; intros this.
  - cbn. by rewrite !app_nil_r.
  - cbn [fold_left]. destruct (IH (call this c)) as (-> & -> & -> & -> & ->).
    destruct c as [attrs|column direction|n|n];
      cbn [call where_ orderBy limit offset _table _conditions _orderByList
           _limitValue _offsetValue mbind list_bind omap list_omap].
    + rewrite pushConditions_matched, <-app_assoc. done.
    + rewrite <-app_assoc. done.
    + rewrite last_cons. repeat split; try done.
      all: by repeat case_match; simplify_eq.
    + rewrite last_cons. repeat split; try done.
      all: by repeat case_match; simplify_eq.
Qed.

(** X9. The chain methods of a [QueryChain] compose: the conditions of the
    [where] calls are conjoined in the order of the calls, each call
    giving the equalities of its attributes; the orders of the [orderBy]
    calls are kept in the order of the calls; the last [limit] and the
    last [offset] are the ones in force. *)
Theorem query_chain_composes (table : TableDefinition) (cs : list Call) :
  chained table cs
  = mk table
       (cs ≫= λ c, match c with
                   | Where attrs =>
                       (λ cv, eq cv.1 cv.2) <$> matched table attrs
                   | _ => []
                   end)
       (omap (λ c, match c with
                   | OrderBy column direction =>
                       Some (column,
                             match direction with Some d => d | None => Asc end)
                   | _ => None
                   end) cs)
       (last (omap (λ c, match c with Limit n => Some n | _ => None end) cs))
       (last (omap (λ c, match c with Offset n => Some n | _ => None end) cs)).
Proof.
  unfold chained.
  destruct (chained_from cs (new table)) as (Ht & Hc & Ho & Hl & Hf).
  destruct (fold_left call cs (new table)) as [t c o l f].
  cbn in Ht, Hc, Ho, Hl, Hf. subst. f_equal; by case_match.
Qed.

End QueryChainFacts.

(** ** [find] and the empty key *)

Module RecordFacts.
Import Logic RuntimeFacts SelectFacts ModelFacts Dispatch DispatchFacts
       Model Records.

Lemma wp_writeExecute (compiled : Js.Exn + Statement) (returning : bool)
  (Q : Outcome (list Row) → World → Prop) (w : World) :
  match compiled, tanaDb w with
  | inl e, _ => Q (Throw e) w
  | inr _, None => Q (Throw (Js.Error "Tana DB runtime not initialized")) w
  | inr q, Some rt =>
      Q (if returning
         then match gw_executeReturning rt (calls w) (st_sql q) (st_params q)
              with
              | inr rows => Ok rows
              | inl e => Throw e
              end
         else match gw_execute rt (calls w) (st_sql q) (st_params q) with
              | inr _ => Ok []
              | inl e => Throw e
              end)
        (mkWorld (heap w) (tanaDb w) (calls w ++ [writeCall returning q]))
  end →
  wp (writeExecute compiled returning) Q w.
Proof.
  unfold wp, writeExecute, bind, getRuntime, throw, ret, runtime_execute,
         runtime_executeReturning, gateway, writeCall.
  destruct compiled as [e|q]; [done|].
  destruct (tanaDb w) as [rt|] eqn:Hrt; [|done].
  destruct returning.
  - destruct (gw_executeReturning rt (calls w) (st_sql q) (st_params q));
      by rewrite ?Hrt.
  - destruct (gw_execute rt (calls w) (st_sql q) (st_params q));
      by rewrite ?Hrt.
Qed.

Lemma wp_createInstance table row persisted Q w :
  (∀ i, heap w !! i = None →
        Q (Ok i)
          (set_heap (<[i := ObjInstance (mkInstance row table persisted)]>
                       (heap w)) w)) →
  wp (createInstance table row persisted) Q w.
Proof. apply wp_alloc. Qed.

(** X10. [find(id)] on a table with a primary key, with a gateway: the select
    by key is sent; the answer without row gives null and no instance is
    made; otherwise a new instance holds the first row and is persisted; a
    rejection of the gateway is thrown. The objects of the heap of the
    call are unchanged. *)
Theorem find_returns_first_row_or_null (table : TableDefinition)
  (key : string) (column : ColumnBuilder) (id : SQLValue) (rt : Gateway)
  (w : World) :
  findPrimaryKey (columns table) = Some key →
  key ≠ EmptyString →
  getColumn table key = Js.Own column →
  tanaDb w = Some rt →
  let q := selectByKey table column id in
  let w' := (find table id w).2 in
  heap w ⊆ heap w'
  ∧ calls w' = calls w ++ [CallQuery (st_sql q) (st_params q)]
  ∧ match gw_query rt (calls w) (st_sql q) (st_params q) with
    | inl e => (find table id w).1 = Throw e
    | inr [] => (find table id w).1 = Ok None
    | inr (row :: _) =>
        ∃ i, (find table id w).1 = Ok (Some i)
             ∧ heap w !! i = None
             ∧ heap w' !! i = Some (ObjInstance (mkInstance row table true))
    end.
Proof.
  intros Hpk Hkey Hcol Hrt q w'. subst w'.
  enough (H : wp (find table id)
                 (λ o w', heap w ⊆ heap w'
                          ∧ calls w' = calls w
                                       ++ [CallQuery (st_sql q) (st_params q)]
                          ∧ match gw_query rt (calls w) (st_sql q)
                                           (st_params q) with
                            | inl e => o = Throw e
                            | inr [] => o = Ok None
                            | inr (row :: _) =>
                                ∃ i, o = Ok (Some i)
                                     ∧ heap w !! i = None
                                     ∧ heap w' !! i
                                       = Some (ObjInstance
                                                 (mkInstance row table true))
                            end) w) by apply H.
  unfold find. rewrite Hpk. unfold missing. rewrite bool_decide_false by done.
  unfold pkCondition. rewrite Hcol. apply wp_bind, wp_ret.
  apply (wp_select_where _ _ _ rt _ _ _ Hrt).
  intros w' (Hsub & _ & _). cbv zeta. fold q.
  destruct (gw_query rt (calls w) (st_sql q) (st_params q))
    as [e|[|row rows]].
  - done.
  - by apply wp_ret.
  - apply wp_bind, wp_createInstance. intros i Hi. apply wp_ret.
    cbn [heap calls set_heap] in *. split; [|split; [done|]].
    + etrans; [exact Hsub|]. by apply insert_subseteq.
    + exists i. split; [done|]. split.
      * by eapply lookup_weaken_None.
      * apply lookup_insert_eq.
Qed.

Lemma find_returns_first_row_or_null_witness :
  (find posts (VString "nonexistent-id")
        (emptyWorld (Some silentGateway))).1 = Ok None.
Proof.
  destruct (find_returns_first_row_or_null posts "id" posts_id
              (VString "nonexistent-id") silentGateway
              (emptyWorld (Some silentGateway))
              eq_refl ltac:(discriminate) eq_refl eq_refl)
    as (_ & _ & H).
  exact H.
Defined.

(** X11. When the first column with the primary-key flag is declared under the
    empty property name, the model takes the table to have no primary
    key: [find], [update], [destroy] and [reload] throw their
    no-primary-key error and send nothing. *)
Theorem empty_key_is_no_primary_key (w : World) (this : loc)
  (self : InstanceFields) (attrs : Row) (id : SQLValue) :
  heap w !! this = Some (ObjInstance self) →
  findPrimaryKey (columns (_table self)) = Some EmptyString →
  find (_table self) id w
    = (Throw (Js.Error "Cannot find: no primary key defined"), w)
  ∧ update this attrs w
    = (Throw (Js.Error "Cannot update: no primary key defined"), w)
  ∧ destroy this w
    = (Throw (Js.Error "Cannot delete: no primary key defined"), w)
  ∧ reload this w
    = (Throw (Js.Error "Cannot reload: no primary key defined"), w).
Proof.
  intros Hthis Hpk.
  unfold find, update, destroy, reload.
  rewrite !(bind_Ok _ _ _ _ _ (readInstance_Ok _ _ _ Hthis)).
  by rewrite Hpk.
Qed.

Lemma empty_key_is_no_primary_key_witness :
  find unnamedKey (VString "x")
       (createInstance unnamedKey [(EmptyString, VString "x")] true
          (emptyWorld (Some silentGateway))).2
  = (Throw (Js.Error "Cannot find: no primary key defined"),
     (createInstance unnamedKey [(EmptyString, VString "x")] true
        (emptyWorld (Some silentGateway))).2).
Proof.
  destruct (empty_key_is_no_primary_key
              (createInstance unnamedKey [(EmptyString, VString "x")] true
                 (emptyWorld (Some silentGateway))).2
              1%positive
              (mkInstance [(EmptyString, VString "x")] unnamedKey true)
              [] (VString "x")) as (H & _).
  - vm_compute; reflexivity.
  - reflexivity.
  - exact H.
Defined.

End RecordFacts.

(** ** [create] and [all] *)

Module CreateFacts.
Import Logic RuntimeFacts SelectFacts ModelFacts Dispatch DispatchFacts
       Model Records RecordFacts InsertFacts InsertDefs.

Lemma insert_one_row table attrs names :
  Forall2 (physical table) (Js.keys attrs) names →
  InsertQueryBuilder.toSQL
    (InsertQueryBuilder.returning
       (InsertQueryBuilder.values (db.insert table)
                                  (InsertQueryBuilder.One attrs)))
  = inr (mkStatement (insertText table names [attrs] +:+ " RETURNING *")
                     (insertParams attrs [attrs])).
Proof.
  intros Hnames.
  unfold InsertQueryBuilder.toSQL, InsertQueryBuilder.valueLists.
  cbn [InsertQueryBuilder._values InsertQueryBuilder.returning
       InsertQueryBuilder.values InsertQueryBuilder._table
       InsertQueryBuilder._returning db.insert InsertQueryBuilder.new].
  rewrite valueLists_acc, (physical_names _ _ _ Hnames).
  unfold insertText, insertParams. cbn [imap app].
  by rewrite !imap_seq_0, (Forall2_length _ _ _ Hnames).
Qed.

(** X12. [create(attrs)] with a gateway sends the insert of the one row
    [attrs] with [RETURNING *], its columns the physical names of the
    keys of [attrs]; it throws [Insert failed] when the answer has no
    row, and otherwise returns a new, persisted instance of the first
    row. The objects that were in the heap are unchanged. *)
Theorem create_returns_first_row (table : TableDefinition) (attrs : Row)
  (names : list string) (rt : Gateway) (w : World) :
  tanaDb w = Some rt →
  Forall2 (physical table) (Js.keys attrs) names →
  let text := insertText table names [attrs] +:+ " RETURNING *" in
  let ps := insertParams attrs [attrs] in
  let w' := (create table attrs w).2 in
  heap w ⊆ heap w'
  ∧ calls w' = calls w ++ [CallExecuteReturning text ps]
  ∧ match gw_executeReturning rt (calls w) text ps with
    | inl e => (create table attrs w).1 = Throw e
    | inr [] => (create table attrs w).1 = Throw (Js.Error "Insert failed")
    | inr (row :: _) =>
        ∃ i, (create table attrs w).1 = Ok i
             ∧ heap w !! i = None
             ∧ heap w' !! i = Some (ObjInstance (mkInstance row table true))
    end.
Proof.
  intros Hrt Hnames text ps w'. subst w'.
  enough (H : wp (create table attrs)
                 (λ o w', heap w ⊆ heap w'
                          ∧ calls w' = calls w ++ [CallExecuteReturning text ps]
                          ∧ match gw_executeReturning rt (calls w) text ps with
                            | inl e => o = Throw e
                            | inr [] => o = Throw (Js.Error "Insert failed")
                            | inr (row :: _) =>
                                ∃ i, o = Ok i
                                     ∧ heap w !! i = None
                                     ∧ heap w' !! i
                                       = Some (ObjInstance
                                                 (mkInstance row table true))
                            end) w) by apply H.
  unfold create. rewrite writeExecute_insert, (insert_one_row _ _ names Hnames).
  apply wp_bind, wp_writeExecute. rewrite Hrt. cbn [st_sql st_params].
  fold text ps.
  destruct (gw_executeReturning rt (calls w) text ps) as [e|[|row rows]].
  - done.
  - by apply wp_throw.
  - apply wp_createInstance. intros i Hi. cbn [heap calls set_heap] in *.
    split; [by apply insert_subseteq|]. split; [done|].
    exists i. split; [done|]. split; [done|]. apply lookup_insert_eq.
Qed.

Lemma create_returns_first_row_witness :
  (create articles [("readTime", VNumber 5)]
          (emptyWorld (Some silentGateway))).1
  = Throw (Js.Error "Insert failed").
Proof.
  destruct (create_returns_first_row articles [("readTime", VNumber 5)]
              ["read_time"] silentGateway (emptyWorld (Some silentGateway))
              eq_refl)
    as (_ & _ & H).
  - constructor; [exact physical_readTime | constructor].
  - exact H.
Defined.

Lemma wp_hydrate table rows : ∀ (Q : Outcome (list loc) → World → Prop) w,
  (∀ locs h,
     heap w ⊆ h →
     length locs = length rows →
     NoDup locs →
     (∀ n l, locs !! n = Some l →
             heap w !! l = None
             ∧ ∃ row, rows !! n = Some row
                      ∧ h !! l = Some (ObjInstance (mkInstance row table true))) →
     Q (Ok locs) (set_heap h w)) →
  wp (hydrate table rows) Q w.
Proof.
  induction rows as [|row rows IH]; intros Q w HQ; cbn [hydrate].
  - apply wp_ret.
    replace w with (set_heap (heap w) w) by (by destruct w).
    apply (HQ [] (heap w)); [done | done | constructor |].
    intros n l Hl. by rewrite lookup_nil in Hl.
  - apply wp_bind, wp_createInstance. intros i Hi.
    apply wp_bind, IH. intros locs h Hsub Hlen Hnd Hlocs. apply wp_ret.
    cbn [heap set_heap tanaDb calls] in *.
    assert (Hih : h !! i = Some (ObjInstance (mkInstance row table true))).
    { eapply lookup_weaken; [|exact Hsub]. apply lookup_insert_eq. }
    apply (HQ (i :: locs) h).
    + etrans; [|exact Hsub]. by apply insert_subseteq.
    + cbn. by rewrite Hlen.
    + constructor; [|done]. intros Hin.
      apply list_elem_of_lookup in Hin as [n Hn].
      destruct (Hlocs n i Hn) as [Hfresh _].
      by rewrite lookup_insert_eq in Hfresh.
    + intros [|n] l Hl; cbn in Hl.
      * injection Hl as <-. split; [done|]. by exists row.
      * destruct (Hlocs n l Hl) as (Hfresh & row' & Hrow & Hobj).
        split; [|by exists row'].
        apply lookup_insert_None in Hfresh. tauto.
Qed.

(** X13. [all()] with a gateway sends [SELECT * FROM "table"] without
    parameter and returns one new instance per row of the answer, in the
    order of the rows: the instances are distinct objects, each holds its
    row and is persisted. The objects that were in the heap are
    unchanged. *)
Theorem all_hydrates_every_row (table : TableDefinition) (rt : Gateway)
  (rows : list Row) (w : World) :
  tanaDb w = Some rt →
  gw_query rt (calls w) ("SELECT * FROM " +:+ Js.quoted (tableName table)) []
  = inr rows →
  let w' := (all table w).2 in
  ∃ locs,
    (all table w).1 = Ok locs
    ∧ length locs = length rows
    ∧ NoDup locs
    ∧ heap w ⊆ heap w'
    ∧ calls w'
      = calls w
        ++ [CallQuery ("SELECT * FROM " +:+ Js.quoted (tableName table)) []]
    ∧ ∀ n l, locs !! n = Some l →
             heap w !! l = None
             ∧ ∃ row, rows !! n = Some row
                      ∧ heap w' !! l
                        = Some (ObjInstance (mkInstance row table true)).
Proof.
  intros Hrt Hrows w'. subst w'.
  enough (H : wp (all table)
                 (λ o w',
                    ∃ locs,
                      o = Ok locs
                      ∧ length locs = length rows
                      ∧ NoDup locs
                      ∧ heap w ⊆ heap w'
                      ∧ calls w'
                        = calls w
                          ++ [CallQuery ("SELECT * FROM "
                                           +:+ Js.quoted (tableName table)) []]
                      ∧ ∀ n l, locs !! n = Some l →
                               heap w !! l = None
                               ∧ ∃ row, rows !! n = Some row
                                        ∧ heap w' !! l
                                          = Some (ObjInstance
                                                    (mkInstance row table true)))
                 w) by apply H.
  unfold all, db.select.
  apply wp_bind, wp_bind, wp_new. intros b w0 E0 _ R0.
  apply (wp_chain_ok b (ChainSelect None) emptyView emptyView _ _ R0 eq_refl).
  intros b0 w1 E1 R1.
  apply wp_bind,
    (wp_chain_ok b0 (ChainFrom table) emptyView
       (mkView (Some table) SelectStar None [] [] [] None None)
       _ _ R1 eq_refl).
  intros b1 w2 E2 R2.
  assert (E : extends w w2)
    by (repeat (eapply extends_trans; [eassumption|]); apply extends_refl).
  destruct E as (Hsub & Hdb & Hcalls).
  unfold SelectQueryBuilder.execute.
  apply wp_bind, wp_bind, (wp_toSQL b1 _ _ _ R2).
  cbn [compileView v_from v_select v_where v_joins v_orderBy v_groupBy
       v_limit v_offset].
  change (SelectQueryBuilder.compile table SelectStar None [] [] [] None None)
    with (mkStatement ("SELECT * FROM " +:+ Js.quoted (tableName table)) []).
  apply wp_bind, wp_getRuntime. rewrite Hdb, Hrt.
  apply wp_gateway. rewrite Hcalls. cbn [st_sql st_params]. rewrite Hrows.
  apply wp_hydrate. cbn [heap]. intros locs h Hsub' Hlen Hnd Hlocs.
  exists locs. cbn [heap calls set_heap]. repeat split; try done.
  - by etrans.
  - destruct (Hlocs n l H) as [Hfresh _]. by eapply lookup_weaken_None.
  - destruct (Hlocs n l H) as [_ Hrow]. exact Hrow.
Qed.

Lemma all_hydrates_every_row_witness :
  ∃ locs,
    (all posts
         (emptyWorld
            (Some (answering [[("id", VString "p1")];
                              [("id", VString "p2")]])))).1
    = Ok locs
    ∧ length locs = 2%nat ∧ NoDup locs.
Proof.
  destruct (all_hydrates_every_row posts
              (answering [[("id", VString "p1")]; [("id", VString "p2")]])
              [[("id", VString "p1")]; [("id", VString "p2")]]
              (emptyWorld
                 (Some (answering [[("id", VString "p1")];
                                   [("id", VString "p2")]])))
              eq_refl eq_refl)
    as (locs & H1 & H2 & H3 & _).
  exists locs. exact (conj H1 (conj H2 H3)).
Defined.

End CreateFacts.

(** ** The methods of an instance *)

Module InstanceFacts.
Import Logic RuntimeFacts SelectFacts ModelFacts Dispatch DispatchFacts
       Model Records RecordFacts CreateFacts InsertDefs.

Lemma wp_consequence {A} (m : M A) (Q Q' : Outcome A → World → Prop) w :
  wp m Q w → (∀ o w', Q o w' → Q' o w') → wp m Q' w.
Proof. unfold wp. auto. Qed.

Lemma wp_stuck {A} (Q : Outcome A → World → Prop) w : Q Stuck w → wp stuck Q w.
Proof. done. Qed.

Lemma wp_eq {A} (m : M A) (r : Outcome A * World) w :
  wp m (λ o w', (o, w') = r) w → m w = r.
Proof. unfold wp. by destruct (m w). Qed.

Lemma wp_writeExecute_heap (compiled : Js.Exn + Statement) (returning : bool)
  (Q : Outcome (list Row) → World → Prop) (w : World) :
  (∀ o w', heap w' = heap w → Q o w') →
  wp (writeExecute compiled returning) Q w.
Proof.
  intros HQ. apply wp_writeExecute.
  destruct compiled as [e|q]; [by apply HQ|].
  destruct (tanaDb w); by apply HQ.
Qed.

(** [db.select().from(table).where(condition).execute()], whatever the
    gateway is and answers: what follows runs in a world that has the
    objects of the heap of the call. *)
Lemma wp_select_where_any {A} table condition (k : list Row → M A) Q w :
  (∀ rows w', heap w ⊆ heap w' → wp (k rows) Q w') →
  (∀ e w', heap w ⊆ heap w' → Q (Throw e) w') →
  wp (let* b0 := db.select None in
      let* b1 := SelectQueryBuilder.from b0 table in
      let* b2 := SelectQueryBuilder.where_ b1 condition in
      let* results := SelectQueryBuilder.execute b2 in
      k results) Q w.
Proof.
  intros HQ HT. unfold db.select.
  apply wp_bind, wp_bind, wp_new. intros b w0 E0 _ R0.
  apply (wp_chain_ok b (ChainSelect None) emptyView emptyView _ _ R0 eq_refl).
  intros b0 w1 E1 R1.
  apply wp_bind,
    (wp_chain_ok b0 (ChainFrom table) emptyView
       (mkView (Some table) SelectStar None [] [] [] None None)
       _ _ R1 eq_refl).
  intros b1 w2 E2 R2.
  apply wp_bind,
    (wp_chain_ok b1 (ChainWhere condition) _
       (mkView (Some table) SelectStar (Some condition) [] [] [] None None)
       _ _ R2 eq_refl).
  intros b2 w3 E3 R3.
  assert (E : extends w w3)
    by (repeat (eapply extends_trans; [eassumption|]); apply extends_refl).
  destruct E as (Hsub & _ & _).
  unfold SelectQueryBuilder.execute.
  apply wp_bind, wp_bind, (wp_toSQL b2 _ _ _ R3).
  cbn [compileView v_from].
  apply wp_bind, wp_getRuntime.
  destruct (tanaDb w3) as [rt|]; [|by apply wp_throw, HT].
  apply wp_gateway.
  destruct (gw_query rt _ _ _) as [e|rows]; [by apply HT | by apply HQ].
Qed.

Lemma proxySet_absent this self name value w :
  heap w !! this = Some (ObjInstance self) →
  Js.has (_attributes self) name = false →
  proxySet this name value w = (Throw (refused name), w).
Proof.
  intros Hthis Hname. unfold proxySet.
  rewrite (bind_Ok _ _ _ _ _ (readInstance_Ok _ _ _ Hthis)).
  by rewrite Hname.
Qed.

(** A property of the instance at [this] that the two assignments of the
    methods, to [_attributes] and to [_persisted], keep. *)
Section Invariant.
Variable this : loc.
Variable P : InstanceFields → Prop.
Hypothesis P_set : ∀ self name value,
  P self → name ∈ ["_attributes"; "_persisted"] →
  Js.has (_attributes self) name = true →
  P (mkInstance (Js.set (_attributes self) name value)
                (_table self) (_persisted self)).

Lemma holds_weaken w w' : heap w ⊆ heap w' → holds this P w → holds this P w'.
Proof.
  intros Hsub (self & Hthis & HP). exists self.
  split; [by eapply lookup_weaken | done].
Qed.

Lemma holds_heap w w' : heap w' = heap w → holds this P w → holds this P w'.
Proof. intros Hh. apply holds_weaken. by rewrite Hh. Qed.

Lemma proxySet_holds name value Q w :
  name ∈ ["_attributes"; "_persisted"] →
  holds this P w →
  (∀ o w', holds this P w' → Q o w') →
  wp (proxySet this name value) Q w.
Proof.
  intros Hname (self & Hthis & HP) HQ. unfold proxySet.
  apply wp_bind, (wp_readInstance _ _ _ _ Hthis).
  destruct (Js.has (_attributes self) name) eqn:Hhas.
  - apply wp_write, HQ. eexists. split; [apply lookup_insert_eq|].
    by apply P_set.
  - apply wp_throw, HQ. by exists self.
Qed.

Lemma update_holds attrs Q w :
  holds this P w →
  (∀ o w', holds this P w' → Q o w') →
  wp (update this attrs) Q w.
Proof.
  intros Hk HQ.
  apply (wp_consequence _ (λ _ w', holds this P w')); [|done].
  destruct Hk as (self & Hthis & HP).
  assert (Hk : holds this P w) by by exists self.
  unfold update. apply wp_bind, (wp_readInstance _ _ _ _ Hthis).
  destruct (findPrimaryKey (columns (_table self))) as [key|];
    [|by apply wp_throw].
  destruct (missing (Some key)); [by apply wp_throw|].
  unfold pkCondition.
  destruct (getColumn (_table self) key) as [column| |];
    [|by apply wp_bind, wp_stuck..].
  apply wp_bind, wp_ret.
  rewrite writeExecute_update.
  apply wp_bind, wp_writeExecute_heap. intros o w' Hh.
  assert (Hk' : holds this P w') by by eapply holds_heap.
  destruct o as [[|row rows]|e|]; [| |done..].
  - by apply wp_bind, wp_ret, wp_ret.
  - apply wp_bind, proxySet_holds; [set_solver|done|].
    intros [[]|e|] w'' Hk''; first [done | by apply wp_ret].
Qed.

Lemma destroy_holds Q w :
  holds this P w →
  (∀ o w', holds this P w' → Q o w') →
  wp (destroy this) Q w.
Proof.
  intros Hk HQ.
  apply (wp_consequence _ (λ _ w', holds this P w')); [|done].
  destruct Hk as (self & Hthis & HP).
  assert (Hk : holds this P w) by by exists self.
  unfold destroy. apply wp_bind, (wp_readInstance _ _ _ _ Hthis).
  destruct (findPrimaryKey (columns (_table self))) as [key|];
    [|by apply wp_throw].
  destruct (missing (Some key)); [by apply wp_throw|].
  unfold pkCondition.
  destruct (getColumn (_table self) key) as [column| |];
    [|by apply wp_bind, wp_stuck..].
  apply wp_bind, wp_ret.
  rewrite writeExecute_delete.
  apply wp_bind, wp_writeExecute_heap. intros o w' Hh.
  assert (Hk' : holds this P w') by by eapply holds_heap.
  destruct o as [rows|e|]; [|done..].
  apply proxySet_holds; [set_solver|done..].
Qed.

Lemma reload_holds Q w :
  holds this P w →
  (∀ o w', holds this P w' → Q o w') →
  wp (reload this) Q w.
Proof.
  intros Hk HQ.
  apply (wp_consequence _ (λ _ w', holds this P w')); [|done].
  destruct Hk as (self & Hthis & HP).
  assert (Hk : holds this P w) by by exists self.
  unfold reload. apply wp_bind, (wp_readInstance _ _ _ _ Hthis).
  destruct (findPrimaryKey (columns (_table self))) as [key|];
    [|by apply wp_throw].
  destruct (missing (Some key)); [by apply wp_throw|].
  unfold pkCondition.
  destruct (getColumn (_table self) key) as [column| |];
    [|by apply wp_bind, wp_stuck..].
  apply wp_bind, wp_ret.
  apply wp_select_where_any.
  - intros [|row rows] w' Hsub.
    + apply wp_throw. by eapply holds_weaken.
    + apply wp_bind, proxySet_holds;
        [set_solver | by eapply holds_weaken |].
      intros [[]|e|] w'' Hk''; first [done | by apply wp_ret].
  - intros e w' Hsub. by eapply holds_weaken.
Qed.

Lemma save_holds Q w :
  holds this P w →
  (∀ o w', holds this P w' → Q o w') →
  wp (save this) Q w.
Proof.
  intros Hk HQ.
  apply (wp_consequence _ (λ _ w', holds this P w')); [|done].
  destruct Hk as (self & Hthis & HP).
  assert (Hk : holds this P w) by by exists self.
  unfold save. apply wp_bind, (wp_readInstance _ _ _ _ Hthis).
  apply wp_bind.
  destruct (_persisted self).
  - destruct (findPrimaryKey (columns (_table self))) as [key|];
      [|by apply wp_ret, wp_ret].
    destruct (missing (Some key)); [by apply wp_ret, wp_ret|].
    apply wp_bind, update_holds; [done|].
    intros [l|e|] w' Hk'; first [done | by apply wp_ret, wp_ret].
  - rewrite writeExecute_insert.
    apply wp_bind, wp_writeExecute_heap. intros o w' Hh.
    assert (Hk' : holds this P w') by by eapply holds_heap.
    destruct o as [[|row rows]|e|]; [| |done..].
    + by apply wp_ret, wp_ret.
    + apply wp_bind, proxySet_holds; [set_solver|done|].
      intros [[]|e|] w'' Hk''; [|done..].
      apply proxySet_holds; [set_solver|done|].
      intros [[]|e'|] w3 Hk3; first [done | by apply wp_ret].
Qed.

Lemma methods_hold attrs w :
  holds this P w →
  holds this P (update this attrs w).2
  ∧ holds this P (destroy this w).2
  ∧ holds this P (reload this w).2
  ∧ holds this P (save this w).2.
Proof.
  intros Hk. split; [|split; [|split]].
  - by apply (update_holds attrs (λ _ w', holds this P w') w Hk).
  - by apply (destroy_holds (λ _ w', holds this P w') w Hk).
  - by apply (reload_holds (λ _ w', holds this P w') w Hk).
  - by apply (save_holds (λ _ w', holds this P w') w Hk).
Qed.

End Invariant.

Lemma prop_set_eq (o : Row) name value :
  prop (Js.set o name value) name = value.
Proof.
  unfold prop, Js.get.
  induction o as [|[k x] o IH]; cbn [Js.set Js.assoc_get].
  - by rewrite decide_True.
  - destruct (decide (k = name)) as [->|Hk]; cbn [Js.assoc_get].
    + by rewrite decide_True.
    + by rewrite decide_False.
Qed.

Lemma prop_set_ne (o : Row) name other value :
  other ≠ name → prop (Js.set o name value) other = prop o other.
Proof.
  intros Hne. unfold prop, Js.get.
  induction o as [|[k x] o IH]; cbn [Js.set Js.assoc_get].
  - by rewrite decide_False.
  - destruct (decide (k = name)) as [->|Hk]; cbn [Js.assoc_get].
    + by rewrite !decide_False.
    + destruct (decide (k = other)); [done | exact IH].
Qed.

Lemma keys_set_own (o : Row) name value :
  name ∈ Js.keys o → Js.keys (Js.set o name value) = Js.keys o.
Proof.
  unfold Js.keys.
  induction o as [|[k x] o IH]; cbn [Js.set fmap list_fmap]; intros Hin.
  - by apply elem_of_nil in Hin.
  - destruct (decide (k = name)) as [->|Hk]; [done|]. cbn.
    f_equal. apply IH. apply elem_of_cons in Hin as [->|Hin]; done.
Qed.

Lemma set_own {A} (o : list (string * A)) name value :
  name ∈ Js.keys (Js.set o name value).
Proof.
  unfold Js.keys.
  induction o as [|[k x] o IH]; cbn [Js.set]; [by left|].
  destruct (decide (k = name)) as [->|]; cbn; [by left | by right].
Qed.

Lemma has_own {A} (o : list (string * A)) name :
  name ∈ Js.keys o → Js.has o name = true.
Proof.
  unfold Js.has, Js.get, Js.keys.
  induction o as [|[k x] o IH]; intros Hin.
  - by apply elem_of_nil in Hin.
  - cbn [Js.assoc_get]. destruct (decide (k = name)) as [->|Hk]; [done|].
    apply IH. cbn in Hin. apply elem_of_cons in Hin as [->|Hin]; done.
Qed.

(** X14. No method of an instance changes its persisted flag or its table:
    after [update], [destroy], [reload] or [save], whatever the gateway
    is and answers and whether the method returns or throws, the instance
    has the flag and the table it had. In particular [destroy] leaves a
    persisted instance persisted and [save] leaves a built one
    unpersisted: their assignments to [_persisted] go to the [set] trap of
    the proxy, which stores attributes only. *)
Theorem methods_keep_persisted_flag (w : World) (this : loc)
  (self : InstanceFields) (attrs : Row) :
  heap w !! this = Some (ObjInstance self) →
  kept this (_table self) (_persisted self) (update this attrs w).2
  ∧ kept this (_table self) (_persisted self) (destroy this w).2
  ∧ kept this (_table self) (_persisted self) (reload this w).2
  ∧ kept this (_table self) (_persisted self) (save this w).2.
Proof.
  intros Hthis. apply methods_hold; [done|]. by exists self.
Qed.

Lemma methods_keep_persisted_flag_witness :
  kept 1%positive posts true
       (destroy 1%positive
          (createInstance posts [("id", VString "p1")] true
             (emptyWorld (Some (answering [])))).2).2.
Proof.
  destruct (methods_keep_persisted_flag
              (createInstance posts [("id", VString "p1")] true
                 (emptyWorld (Some (answering [])))).2
              1%positive (mkInstance [("id", VString "p1")] posts true) [])
    as (_ & H & _).
  - vm_compute; reflexivity.
  - exact H.
Defined.

(** X15. The row that the database answers never reaches the instance: when
    no attribute is named [_attributes] or [_persisted], the instance is
    after [update], [destroy], [reload] or [save] the object it was, with
    the attributes it had, whatever the gateway is and answers and
    whether the method returns or throws. *)
Theorem methods_leave_instance_unchanged (w : World) (this : loc)
  (self : InstanceFields) (attrs : Row) :
  heap w !! this = Some (ObjInstance self) →
  Js.has (_attributes self) "_attributes" = false →
  Js.has (_attributes self) "_persisted" = false →
  heap (update this attrs w).2 !! this = Some (ObjInstance self)
  ∧ heap (destroy this w).2 !! this = Some (ObjInstance self)
  ∧ heap (reload this w).2 !! this = Some (ObjInstance self)
  ∧ heap (save this w).2 !! this = Some (ObjInstance self).
Proof.
  intros Hthis Ha Hp.
  destruct (methods_hold this (λ self', self' = self)) with (attrs := attrs)
    (w := w) as (Hu & Hd & Hr & Hs).
  - intros self' name value -> Hname Hhas.
    apply elem_of_cons in Hname as [->|Hname]; [congruence|].
    apply list_elem_of_singleton in Hname as ->. congruence.
  - by exists self.
  - destruct Hu as (? & ? & ->), Hd as (? & ? & ->), Hr as (? & ? & ->),
             Hs as (? & ? & ->). done.
Qed.

Lemma methods_leave_instance_unchanged_witness :
  heap (update 1%positive [("title", VString "New")]
          (createInstance posts [("id", VString "p1")] true
             (emptyWorld (Some (answering [[("id", VString "p1");
                                            ("title", VString "New")]])))).2).2
    !! 1%positive
  = Some (ObjInstance (mkInstance [("id", VString "p1")] posts true)).
Proof.
  destruct (methods_leave_instance_unchanged
              (createInstance posts [("id", VString "p1")] true
                 (emptyWorld (Some (answering [[("id", VString "p1");
                                                ("title", VString "New")]])))).2
              1%positive (mkInstance [("id", VString "p1")] posts true)
              [("title", VString "New")])
    as (H & _).
  - vm_compute; reflexivity.
  - vm_compute; reflexivity.
  - vm_compute; reflexivity.
  - exact H.
Defined.

(** X16. [destroy()] never returns: on an instance of a table with a primary
    key, with a gateway and without attribute named [_persisted], it
    sends the DELETE by key with [execute], and then throws, the
    rejection of the gateway or, when the gateway accepted, the
    [TypeError] of the assignment to [_persisted]. The heap is
    unchanged. *)
Theorem destroy_sends_delete_then_throws (w : World) (this : loc)
  (self : InstanceFields) (key : string) (column : ColumnBuilder)
  (rt : Gateway) :
  heap w !! this = Some (ObjInstance self) →
  findPrimaryKey (columns (_table self)) = Some key →
  key ≠ EmptyString →
  getColumn (_table self) key = Js.Own column →
  tanaDb w = Some rt →
  Js.has (_attributes self) "_persisted" = false →
  let q := deleteByKey (_table self) column (prop (_attributes self) key) in
  destroy this w
  = (match gw_execute rt (calls w) (st_sql q) (st_params q) with
     | inl e => Throw e
     | inr _ => Throw (refused "_persisted")
     end,
     called (CallExecute (st_sql q) (st_params q)) w).
Proof.
  intros Hthis Hpk Hkey Hcol Hrt Hp q. apply wp_eq.
  unfold destroy. apply wp_bind, (wp_readInstance _ _ _ _ Hthis).
  rewrite Hpk. unfold missing. rewrite bool_decide_false by done.
  unfold pkCondition. rewrite Hcol. apply wp_bind, wp_ret.
  rewrite writeExecute_delete. apply wp_bind, wp_writeExecute.
  rewrite Hrt. cbn [DeleteQueryBuilder._returning DeleteQueryBuilder.where_
                    db.delete DeleteQueryBuilder.new].
  fold (deleteByKey (_table self) column (prop (_attributes self) key)).
  fold q. unfold writeCall, called. rewrite Hrt.
  destruct (gw_execute rt (calls w) (st_sql q) (st_params q)) as [e|n];
    [done|].
  unfold wp. by rewrite (proxySet_absent _ self).
Qed.

Lemma destroy_sends_delete_then_throws_witness :
  (destroy 1%positive
     (createInstance posts [("id", VString "p1")] true
        (emptyWorld (Some (answering [])))).2).1
  = Throw (refused "_persisted").
Proof.
  pose proof (destroy_sends_delete_then_throws
                (createInstance posts [("id", VString "p1")] true
                   (emptyWorld (Some (answering [])))).2
                1%positive (mkInstance [("id", VString "p1")] posts true)
                "id" posts_id (answering [])) as H.
  rewrite H.
  - reflexivity.
  - vm_compute; reflexivity.
  - reflexivity.
  - discriminate.
  - reflexivity.
  - reflexivity.
  - reflexivity.
Defined.

(** X17. [update(attrs)] returns the instance only when the database answers
    no row. On an instance of a table with a primary key, with a gateway
    and without attribute named [_attributes]: an error of [toSQL] is
    thrown and nothing is sent; otherwise the UPDATE by key with RETURNING
    is sent with [executeReturning], a rejection is thrown, an answer
    without row returns the instance, and an answer with a row throws the
    [TypeError] of the assignment to [_attributes]. The heap is unchanged
    in every case. *)
Theorem update_returns_only_without_row (w : World) (this : loc)
  (self : InstanceFields) (key : string) (column : ColumnBuilder)
  (rt : Gateway) (attrs : Row) :
  heap w !! this = Some (ObjInstance self) →
  findPrimaryKey (columns (_table self)) = Some key →
  key ≠ EmptyString →
  getColumn (_table self) key = Js.Own column →
  tanaDb w = Some rt →
  Js.has (_attributes self) "_attributes" = false →
  update this attrs w
  = match UpdateQueryBuilder.toSQL
            (UpdateQueryBuilder.returning
               (UpdateQueryBuilder.where_
                  (UpdateQueryBuilder.set (db.update (_table self)) attrs)
                  (eq column (prop (_attributes self) key)))) with
    | inl e => (Throw e, w)
    | inr q =>
        (match gw_executeReturning rt (calls w) (st_sql q) (st_params q) with
         | inl e => Throw e
         | inr [] => Ok this
         | inr (_ :: _) => Throw (refused "_attributes")
         end,
         called (CallExecuteReturning (st_sql q) (st_params q)) w)
    end.
Proof.
  intros Hthis Hpk Hkey Hcol Hrt Ha. apply wp_eq.
  unfold update. apply wp_bind, (wp_readInstance _ _ _ _ Hthis).
  rewrite Hpk. unfold missing. rewrite bool_decide_false by done.
  unfold pkCondition. rewrite Hcol. apply wp_bind, wp_ret.
  rewrite writeExecute_update. apply wp_bind, wp_writeExecute.
  destruct (UpdateQueryBuilder.toSQL _) as [e|q]; [done|].
  rewrite Hrt. cbn [UpdateQueryBuilder._returning UpdateQueryBuilder.returning].
  unfold writeCall, called. rewrite Hrt.
  destruct (gw_executeReturning rt (calls w) (st_sql q) (st_params q))
    as [e|[|row rows]]; [done| |].
  - by apply wp_bind, wp_ret, wp_ret.
  - apply wp_bind. unfold wp. by rewrite (proxySet_absent _ self).
Qed.

Lemma update_returns_only_without_row_witness :
  (update 1%positive [("title", VString "New")]
     (createInstance posts [("id", VString "p1")] true
        (emptyWorld (Some (answering [[("id", VString "p1");
                                       ("title", VString "New")]])))).2).1
  = Throw (refused "_attributes").
Proof.
  pose proof (update_returns_only_without_row
                (createInstance posts [("id", VString "p1")] true
                   (emptyWorld
                      (Some (answering [[("id", VString "p1");
                                         ("title", VString "New")]])))).2
                1%positive (mkInstance [("id", VString "p1")] posts true)
                "id" posts_id
                (answering [[("id", VString "p1"); ("title", VString "New")]])
                [("title", VString "New")]) as H.
  rewrite H.
  - reflexivity.
  - vm_compute; reflexivity.
  - reflexivity.
  - discriminate.
  - reflexivity.
  - reflexivity.
  - reflexivity.
Defined.

(** X18. [save()] of an instance that is not persisted, with a gateway and
    without attribute named [_attributes]: the insert of the attributes
    with [RETURNING *] is sent with [executeReturning]; a rejection is
    thrown, an answer without row returns the instance, and an answer
    with a row throws the [TypeError] of the assignment to [_attributes].
    The heap is unchanged in every case, so the instance stays
    unpersisted. The columns of the insert are the physical names
    [names] of the attributes. *)
Theorem save_of_new_record (w : World) (this : loc) (self : InstanceFields)
  (names : list string) (rt : Gateway) :
  heap w !! this = Some (ObjInstance self) →
  _persisted self = false →
  tanaDb w = Some rt →
  Js.has (_attributes self) "_attributes" = false →
  Forall2 (physical (_table self)) (Js.keys (_attributes self)) names →
  let text :=
    insertText (_table self) names [_attributes self] +:+ " RETURNING *" in
  let ps := insertParams (_attributes self) [_attributes self] in
  save this w
  = (match gw_executeReturning rt (calls w) text ps with
     | inl e => Throw e
     | inr [] => Ok this
     | inr (_ :: _) => Throw (refused "_attributes")
     end,
     called (CallExecuteReturning text ps) w).
Proof.
  intros Hthis Hnew Hrt Ha Hnames text ps. apply wp_eq.
  unfold save. apply wp_bind, (wp_readInstance _ _ _ _ Hthis).
  rewrite Hnew, writeExecute_insert, (insert_one_row _ _ names Hnames).
  apply wp_bind, wp_bind, wp_writeExecute.
  rewrite Hrt. cbn [st_sql st_params]. fold text ps.
  unfold writeCall, called. cbn [st_sql st_params]. rewrite Hrt.
  destruct (gw_executeReturning rt (calls w) text ps) as [e|[|row rows]];
    [done| |].
  - by apply wp_ret, wp_ret.
  - apply wp_bind. unfold wp. by rewrite (proxySet_absent _ self).
Qed.

Lemma save_of_new_record_witness :
  (save 1%positive
     (createInstance articles [("readTime", VNumber 5)] false
        (emptyWorld (Some (answering [[("id", VString "a1");
                                       ("readTime", VNumber 5)]])))).2).1
  = Throw (refused "_attributes").
Proof.
  pose proof (save_of_new_record
                (createInstance articles [("readTime", VNumber 5)] false
                   (emptyWorld
                      (Some (answering [[("id", VString "a1");
                                         ("readTime", VNumber 5)]])))).2
                1%positive
                (mkInstance [("readTime", VNumber 5)] articles false)
                ["read_time"]
                (answering [[("id", VString "a1"); ("readTime", VNumber 5)]]))
    as H.
  rewrite H.
  - reflexivity.
  - vm_compute; reflexivity.
  - reflexivity.
  - reflexivity.
  - reflexivity.
  - constructor; [exact InsertFacts.physical_readTime | constructor].
Defined.

(** X19. Writing and reading an attribute through the proxy. An assignment
    [instance.name = value] to the name of an attribute returns and
    stores the value: [get(name)] then gives it, the other attributes, the
    table and the flag are as before, [toJSON()] has the same keys in the
    same order, and [instance.name] reads the value unless the name is
    the one of a member of the instance. An assignment to a name that is
    not in the attributes throws a [TypeError] and changes nothing.
    Neither sends anything. *)
Theorem attribute_assignment_round_trip (w : World) (this : loc)
  (self : InstanceFields) (name : string) (value : SQLValue) :
  heap w !! this = Some (ObjInstance self) →
  (name ∈ Js.keys (_attributes self) →
   ∃ w', proxySet this name value w = (Ok (), w')
         ∧ calls w' = calls w
         ∧ kept this (_table self) (_persisted self) w'
         ∧ get this name w' = (Ok value, w')
         ∧ (∀ other, other ≠ name →
                     get this other w'
                     = (Ok (prop (_attributes self) other), w'))
         ∧ (∃ json, toJSON this w' = (Ok json, w')
                    ∧ Js.keys json = Js.keys (_attributes self))
         ∧ (name ∉ members ++ Js.inherited →
            proxyGet this name w' = (Ok (GotValue value), w')))
  ∧ (Js.has (_attributes self) name = false →
     proxySet this name value w = (Throw (refused name), w)).
Proof.
  intros Hthis. split; [|by apply (proxySet_absent _ self)].
  intros Hown. pose proof (has_own _ _ Hown) as Hhas.
  set (self' := mkInstance (Js.set (_attributes self) name value)
                           (_table self) (_persisted self)).
  exists (set_heap (<[this := ObjInstance self']> (heap w)) w).
  assert (Hthis' : heap (set_heap (<[this := ObjInstance self']> (heap w)) w)
                     !! this = Some (ObjInstance self'))
    by apply lookup_insert_eq.
  split; [|split; [done|split; [by exists self'|]]].
  { unfold proxySet.
    rewrite (bind_Ok _ _ _ _ _ (readInstance_Ok _ _ _ Hthis)).
    by rewrite Hhas. }
  unfold get, toJSON, proxyGet.
  rewrite !(bind_Ok _ _ _ _ _ (readInstance_Ok _ _ _ Hthis')).
  subst self'. cbn [_attributes] in *.
  split; [|split; [|split]].
  - unfold ret. by rewrite prop_set_eq.
  - intros other Hne.
    rewrite (bind_Ok _ _ _ _ _ (readInstance_Ok _ _ _ Hthis')).
    unfold ret. cbn [_attributes]. by rewrite prop_set_ne.
  - eexists. split; [done|]. by apply keys_set_own.
  - intros Hmember. rewrite bool_decide_false by done.
    assert (Js.has (Js.set (_attributes self) name value) name = true) as ->
      by apply has_own, set_own.
    unfold ret. by rewrite prop_set_eq.
Qed.

Lemma attribute_assignment_round_trip_witness :
  get 1%positive "title"
      (proxySet 1%positive "title" (VString "New")
         (createInstance posts [("id", VString "p1");
                                ("title", VString "Old")] true
            (emptyWorld None)).2).2
  = (Ok (VString "New"),
     (proxySet 1%positive "title" (VString "New")
        (createInstance posts [("id", VString "p1");
                               ("title", VString "Old")] true
           (emptyWorld None)).2).2).
Proof.
  pose proof (attribute_assignment_round_trip
                (createInstance posts [("id", VString "p1");
                                       ("title", VString "Old")] true
                   (emptyWorld None)).2
                1%positive
                (mkInstance [("id", VString "p1"); ("title", VString "Old")]
                            posts true)
                "title" (VString "New")) as H.
  destruct H as [H _].
  - vm_compute; reflexivity.
  - destruct H as (w' & Hset & _ & _ & Hget & _).
    + vm_compute. by left + (right; left).
    + rewrite Hset. exact Hget.
Defined.

End InstanceFacts.
